(** * Scrapper.py: a resumable crawler of the metabolomics.jp flavonoid index

    A shallow embedding of [Scrapper.py] and the properties its
    specification states about it.

    What is modelled, and how:
    - Python [str] values are [string]s; a character is a code point below
      256.  The methods the script calls ([strip], [lower], [split], [in],
      [startswith], [len], [int], [float], [str]) are written out below.
    - [requests.get] followed by [BeautifulSoup(r.text, "html.parser")] is
      one lookup in the [web]: a URL answers with an exception or with a
      parsed page, the same way each time it is asked.  A page is given by what the script's three queries see
      in it: its anchors ([soup.find("a", ...)]), the texts of the anchors
      selected by ["ul li a"], and the cell texts of the rows selected by
      ["table tr"].
    - Module-level state ([skipped_entries]), the file system and the list
      of requests issued are threaded through a state-and-exception monad.
    - The worker threads of a batch are one sequential pass over the
      batch in the order the [schedule] of the state gives: the calls of
      [fetch_entry] share nothing but [skipped_entries], to which each
      appends at most once.
    - The [while True] of [get_listing_pages] takes fuel; a run that comes
      back with [None] has used it up.
    - Console output, timing and the creation of the checkpoint directory
      at import are not modelled. *)

From Stdlib Require Import ZArith Lia Ascii String List DecimalString DecimalPos.
From stdpp Require Import base decidable option list gmap strings sorting.

Local Open Scope string_scope.
Local Open Scope Z_scope.

(** ** Python strings *)

Module Py.

(** [str.isspace] on one character (code points below 256). *)
Definition isspace (c : ascii) : bool :=
  let n := N_of_ascii c in
  ((9 <=? n) && (n <=? 13) || (28 <=? n) && (n <=? 32)
   || (n =? 133) || (n =? 160))%N.

(** [str.lower] on one character: A-Z, and the Latin-1 capitals. *)
Definition lower_char (c : ascii) : ascii :=
  let n := N_of_ascii c in
  if ((65 <=? n) && (n <=? 90)
      || (192 <=? n) && (n <=? 222) && negb (n =? 215))%N
  then ascii_of_N (n + 32) else c.

Fixpoint lower (s : string) : string :=
  match s with
  | "" => ""
  | String c r => String (lower_char c) (lower r)
  end.

Fixpoint lstrip (s : string) : string :=
  match s with
  | "" => ""
  | String c r => if isspace c then lstrip r else s
  end.

Fixpoint rstrip (s : string) : string :=
  match s with
  | "" => ""
  | String c r =>
      match rstrip r with
      | "" => if isspace c then "" else String c ""
      | r' => String c r'
      end
  end.

(** [s.strip()] *)
Definition strip (s : string) : string := rstrip (lstrip s).

(** [len(s)] *)
Definition len (s : string) : Z := Z.of_nat (String.length s).

(** [s.startswith(p)] *)
Definition startswith (s p : string) : bool := String.prefix p s.

(** [p in s] *)
Fixpoint contains (s p : string) : bool :=
  String.prefix p s ||
  match s with
  | "" => false
  | String _ r => contains r p
  end.

(** [s.split()]: the maximal runs of non-whitespace characters.  [cur] is
    the run being read, reversed. *)
Fixpoint split_ws_aux (cur : list ascii) (s : string) : list string :=
  let flush := match cur with
               | [] => []
               | _ => [string_of_list_ascii (rev cur)]
               end in
  match s with
  | "" => flush
  | String c r =>
      if isspace c then flush ++ split_ws_aux [] r
      else split_ws_aux (c :: cur) r
  end.

Definition split_ws (s : string) : list string := split_ws_aux [] s.

(** [s.split(sep)] for a one-character separator: always at least one
    piece, empty pieces kept. *)
Fixpoint split_on (sep : ascii) (s : string) : list string :=
  match s with
  | "" => [""]
  | String c r =>
      if Ascii.eqb c sep then "" :: split_on sep r
      else match split_on sep r with
           | [] => [String c ""]
           | p :: ps => String c p :: ps
           end
  end.

(** *** Numbers *)

Definition isdigit (c : ascii) : bool :=
  let n := N_of_ascii c in ((48 <=? n) && (n <=? 57))%N.

Definition digit_value (c : ascii) : Z := Z.of_N (N_of_ascii c) - 48.

(** PEP 515: an underscore may only stand between two digits.  Returns
    the text without its underscores, or [None] when one is misplaced.
    [prev] is the previous character, if any. *)
Fixpoint drop_underscores (prev : option ascii) (s : string) : option string :=
  match s with
  | "" => match prev with
          | Some "_"%char => None
          | _ => Some ""
          end
  | String c r =>
      if Ascii.eqb c "_" then
        match prev with
        | Some p => if isdigit p then drop_underscores (Some c) r else None
        | None => None
        end
      else
        match prev with
        | Some "_"%char =>
            if isdigit c then String c <$> drop_underscores (Some c) r
            else None
        | _ => String c <$> drop_underscores (Some c) r
        end
  end.

(** The value of a non-empty run of decimal digits. *)
Fixpoint digits_value (acc : Z) (s : string) : option Z :=
  match s with
  | "" => Some acc
  | String c r =>
      if isdigit c then digits_value (10 * acc + digit_value c) r else None
  end.

Definition digits (s : string) : option Z :=
  match s with
  | "" => None
  | _ => digits_value 0 s
  end.

(** A leading sign: is the number negative, and the rest. *)
Definition take_sign (s : string) : bool * string :=
  match s with
  | String "-" r => (true, r)
  | String "+" r => (false, r)
  | _ => (false, s)
  end.

(** [int(s)] in base 10; [None] stands for [ValueError]. *)
Definition int (s : string) : option Z :=
  t ← drop_underscores None (strip s);
  let '(neg, body) := take_sign t in
  n ← digits body;
  Some (if neg:bool then - n else n).

(** [str(n)] for an integer. *)
Definition str (n : Z) : string :=
  DecimalString.NilZero.string_of_int (Z.to_int n).

(** A binary64 value: [Finite neg m e] is [(-1)^neg * m * 2^e]. *)
Inductive float64 :=
  | Finite (neg : bool) (m e : Z)
  | Inf (neg : bool)
  | NaN.

(** [num / den] divided by [2 ^ e], as a fraction of integers. *)
Definition scaled (num den e : Z) : Z * Z :=
  (num * 2 ^ Z.max 0 (- e), den * 2 ^ Z.max 0 e).

(** The integer nearest to [n / d], ties to even. *)
Definition round_half_even (n d : Z) : Z :=
  let q := n / d in
  let r := n mod d in
  if 2 * r <? d then q
  else if d <? 2 * r then q + 1
  else if Z.even q then q else q + 1.

(** The exponent [e] at which [num / den] has 53 significant bits:
    [2 ^ 52 <= num / den / 2 ^ e < 2 ^ 53]. *)
Definition binary_exponent (num den : Z) : Z :=
  let e0 := Z.log2 num - Z.log2 den - 52 in
  let '(n, d) := scaled num den e0 in
  if n / d <? 2 ^ 52 then e0 - 1 else e0.

(** The binary64 nearest to [num / den] (both positive), ties to even;
    overflow gives infinity. *)
Definition round_binary64 (neg : bool) (num den : Z) : float64 :=
  let e := Z.max (binary_exponent num den) (-1074) in
  let '(n, d) := scaled num den e in
  let m := round_half_even n d in
  let '(m, e) := if m =? 2 ^ 53 then (2 ^ 52, e + 1) else (m, e) in
  if 971 <? e then Inf neg else Finite neg m e.

(** Splits at the first [e] or [E]: the mantissa text and, if present,
    the exponent text. *)
Fixpoint split_exponent (s : string) : string * option string :=
  match s with
  | "" => ("", None)
  | String c r =>
      if Ascii.eqb c "e" || Ascii.eqb c "E" then ("", Some r)
      else let '(m, x) := split_exponent r in (String c m, x)
  end.

(** Splits at the first [.]: integer digits and fraction digits. *)
Fixpoint split_point (s : string) : string * string :=
  match s with
  | "" => ("", "")
  | String c r =>
      if Ascii.eqb c "." then ("", r)
      else let '(i, f) := split_point r in (String c i, f)
  end.

(** A run of digits that may be empty. *)
Definition digits_or_zero (s : string) : option Z :=
  match s with
  | "" => Some 0
  | _ => digits_value 0 s
  end.

(** [float(s)]; [None] stands for [ValueError]. *)
Definition float (s : string) : option float64 :=
  t ← drop_underscores None (strip s);
  let '(neg, body) := take_sign t in
  let word := lower body in
  if String.eqb word "inf" || String.eqb word "infinity" then Some (Inf neg)
  else if String.eqb word "nan" then Some NaN
  else
    let '(mant, ex) := split_exponent body in
    let '(ip, fp) := split_point mant in
    if String.eqb ip "" && String.eqb fp "" then None
    else
      i ← digits_or_zero ip;
      f ← digits_or_zero fp;
      x ← match ex with
          | None => Some 0
          | Some xs => let '(xneg, xd) := take_sign xs in
                       n ← digits xd;
                       Some (if xneg:bool then - n else n)
          end;
      let m := i * 10 ^ Z.of_nat (String.length fp) + f in
      let e10 := x - Z.of_nat (String.length fp) in
      Some (if m =? 0 then Finite neg 0 0
            else if 0 <=? e10 then round_binary64 neg (m * 10 ^ e10) 1
            else round_binary64 neg m (10 ^ (- e10))).

(** [int(x)] for a float: truncation toward zero; [None] stands for the
    [OverflowError] on an infinity and the [ValueError] on a NaN. *)
Definition int_of_float (x : float64) : option Z :=
  match x with
  | Finite neg m e =>
      let a := if 0 <=? e then m * 2 ^ e else m / 2 ^ (- e) in
      Some (if neg then - a else a)
  | Inf _ | NaN => None
  end.

End Py.

(** ** The web *)

(** An [<a>] element as [soup.find("a", string=...)] sees it: its
    [.string] ([None] when the anchor has no single text child) and its
    [href] attribute, if any. *)
Record anchor := Anchor {
  a_string : option string;
  a_href : option string
}.

Record page := Page {
  anchors : list anchor;          (* every <a>, in document order *)
  ul_li_a : list string;          (* [.text] of each element of select("ul li a") *)
  table_tr : list (list string)   (* per select("table tr") row, the
                                     get_text(" ", strip=True) of its td/th cells *)
}.

Inductive exn :=
  | RequestException (url : string)
  | KeyError (key : string)
  | IndexError (what : string)
  | FileNotFoundError (path : string)
  | EmptyDataError (path : string).

(** The answer to a GET: an exception raised while the page is fetched or
    parsed, or the parsed page. *)
Inductive response :=
  | Fails (e : exn)
  | Serves (p : page).

(** ** Tables *)

(** A cell of a pandas table.  The script only ever builds [VStr] cells;
    the others are what [pd.read_csv] infers.  A float is kept as a
    decimal literal denoting it: pandas' own reader is not correctly
    rounded and the model does not commit to the bits. *)
Inductive value :=
  | VStr (s : string)
  | VInt (z : Z)
  | VFloat (literal : string)
  | VBool (b : bool)
  | VNaN.

(** A Python dict with string keys, in insertion order. *)
Definition dict := list (string * value).

Record frame := Frame {
  columns : list string;
  rows : list (list value)
}.

(** A CSV file, as the table of texts that the csv writer quotes and the
    reader's tokenizer unquotes: a header line and the data lines.  The
    files [to_csv] writes have distinct column names and rows as long as
    the header. *)
Record csv := Csv {
  header : list string;
  body : list (list string)
}.

(** ** State, exceptions and the monad *)

Inductive event :=
  | Get (url : string)               (* requests.get(url) *)
  | ReadCsv (path : string)          (* pd.read_csv(path) *)
  | ToCsv (path : string).           (* df.to_csv(path, index=False) *)

Record state := State {
  web : string -> response;          (* what each URL answers *)
  schedule : list string -> list nat; (* the thread pool's choices, see [completion_order] *)
  float_repr : string -> string;     (* how to_csv prints the float a literal denotes *)
  files : gmap string csv;           (* CSV files, by path *)
  skipped_entries : list string;     (* the module-level list *)
  trace : list event                 (* effects so far, oldest first *)
}.

Definition set_files (f : gmap string csv) (st : state) : state :=
  State (web st) (schedule st) (float_repr st) f (skipped_entries st) (trace st).
Definition set_skipped (l : list string) (st : state) : state :=
  State (web st) (schedule st) (float_repr st) (files st) l (trace st).
Definition set_trace (t : list event) (st : state) : state :=
  State (web st) (schedule st) (float_repr st) (files st) (skipped_entries st) t.

Inductive result (A : Type) :=
  | Ok (a : A)
  | Raise (e : exn).
Arguments Ok {A} a.
Arguments Raise {A} e.

Definition M (A : Type) : Type := state -> result A * state.

#[export] Instance M_ret : MRet M := fun A a st => (Ok a, st).
#[export] Instance M_bind : MBind M := fun A B f m st =>
  match m st with
  | (Ok a, st') => f a st'
  | (Raise e, st') => (Raise e, st')
  end.

Definition raise {A} (e : exn) : M A := fun st => (Raise e, st).

(** [try: body  except Exception: handler] *)
Definition try_except {A} (body : M A) (handler : M A) : M A := fun st =>
  match body st with
  | (Ok a, st') => (Ok a, st')
  | (Raise _, st') => handler st'
  end.

Definition emit (ev : event) : M unit := fun st =>
  (Ok tt, set_trace (trace st ++ [ev]) st).

Definition get_state : M state := fun st => (Ok st, st).

Definition write_file (path : string) (text : csv) : M unit := fun st =>
  (Ok tt, set_files (<[path := text]> (files st)) st).

(** [for x in xs: body] over an accumulator. *)
Fixpoint for_each {A B} (xs : list A) (body : B -> A -> M B) (acc : B) : M B :=
  match xs with
  | [] => mret acc
  | x :: xs' => acc' ← body acc x; for_each xs' body acc'
  end.

(** [soup = BeautifulSoup(requests.get(url).text, "html.parser")] *)
Definition requests_get (url : string) : M page :=
  emit (Get url);;
  st ← get_state;
  match web st url with
  | Fails e => raise e
  | Serves p => mret p
  end.

(** [skipped_entries.append(fid)] *)
Definition skipped_append (fid : string) : M unit := fun st =>
  (Ok tt, set_skipped (skipped_entries st ++ [fid]) st).

Definition BASE_URL : string := "http://metabolomics.jp".
Definition LISTING_URL : string :=
  "http://metabolomics.jp/mediawiki/index.php?title=Special:WhatLinksHere/Index:FL&namespace=0&limit=500".
Definition checkpoint_dir : string := "checkpoints".

(** ** get_listing_pages *)

(** The [string=] filter of line 21. *)
Definition is_next_link (a : anchor) : bool :=
  match a_string a with
  | Some x => negb (String.eqb x "") && Py.contains (Py.lower x) "next 500"
  | None => false
  end.

(** [soup.find("a", string=...)]: the first anchor that passes. *)
Definition find_next_link (soup : page) : option anchor :=
  head (List.filter is_next_link (anchors soup)).

(** The [while True] loop of lines 18-24.  [None] when [fuel] turns of
    the loop were not enough to leave it. *)
Fixpoint listing_loop (fuel : nat) (urls : list string) : M (option (list string)) :=
  match fuel with
  | O => mret None
  | S fuel' =>
      match last urls with
      | None => raise (IndexError "urls")
      | Some u =>
          soup ← requests_get u;
          match find_next_link soup with
          | None => mret (Some urls)
          | Some next_link =>
              match a_href next_link with
              | None => raise (KeyError "href")
              | Some href => listing_loop fuel' (urls ++ [BASE_URL ++ href])
              end
          end
      end
  end.

Definition get_listing_pages (fuel : nat) : M (option (list string)) :=
  listing_loop fuel [LISTING_URL].

(** ** extract_ids *)

(** The test of line 34. *)
Definition valid_id (fid : string) : bool :=
  (Py.len fid =? 12) && Py.startswith fid "FL".

(** One turn of the [for li in soup.select("ul li a")] loop. *)
Definition extract_step (ids : list string) (li_text : string) : list string :=
  let fid := Py.strip li_text in
  if valid_id fid then ids ++ [fid] else ids.

Definition extract_ids (listing_url : string) : M (list string) :=
  soup ← requests_get listing_url;
  mret (foldl extract_step [] (ul_li_a soup)).

(** ** fetch_entry *)

(** The three locals of line 44. *)
Record fields := Fields {
  smiles : string;
  systematic_name : string;
  avg_mass : string
}.

(** [str(int(float(value.split()[0])))]; [None] when any step raises. *)
Definition parse_mass (value : string) : option string :=
  tok ← head (Py.split_ws value);
  x ← Py.float tok;
  n ← Py.int_of_float x;
  Some (Py.str n).

(** One turn of the [for row in soup.select("table tr")] loop;
    [cells] are the texts of the row's td/th cells. *)
Definition scan_row (f : fields) (cells : list string) : fields :=
  match cells with
  | c0 :: c1 :: _ =>
      let key := Py.lower c0 in
      let value := c1 in
      if Py.contains key "smiles" then
        Fields value (systematic_name f) (avg_mass f)
      else if Py.contains key "systematic name" then
        Fields (smiles f) value (avg_mass f)
      else if Py.contains key "average mass" then
        match parse_mass value with
        | Some m => Fields (smiles f) (systematic_name f) m
        | None => f
        end
      else f
  | _ => f
  end.

Definition scan_rows (table_rows : list (list string)) : fields :=
  foldl scan_row (Fields "" "" "") table_rows.

(** The dict of lines 61-64. *)
Definition entry (fid : string) (f : fields) : dict :=
  [("Flavonoid_ID", VStr fid);
   ("Systematic_Name", VStr (systematic_name f));
   ("SMILES", VStr (smiles f));
   ("Average_Mass", VStr (avg_mass f))].

(** The truth value of a [str]. *)
Definition truthy (s : string) : bool := negb (String.eqb s "").

(** [f"{BASE_URL}/wiki/{fid}"] *)
Definition entry_url (fid : string) : string := BASE_URL ++ "/wiki/" ++ fid.

(** The test of line 60. *)
Definition usable (f : fields) : bool :=
  truthy (smiles f) || truthy (systematic_name f).

Definition fetch_entry (fid : string) : M (option dict) :=
  let url := entry_url fid in
  try_except
    (soup ← requests_get url;
     let f := scan_rows (table_tr soup) in
     if usable f then
       mret (Some (entry fid f))
     else
       skipped_append fid;; mret None)
    (skipped_append fid;; mret None).

(** ** pandas *)

Module Pd.

(** [d.get(k)]: the value bound to [k], if any. *)
Definition dict_get (d : dict) (k : string) : option value :=
  snd <$> List.find (fun kv => String.eqb (fst kv) k) d.

(** Column names of [pd.DataFrame(data)]: the keys, in order of first
    appearance. *)
Definition add_key (cols : list string) (k : string) : list string :=
  if existsb (String.eqb k) cols then cols else cols ++ [k].

Definition frame_columns (data : list dict) : list string :=
  foldl (fun cols d => foldl add_key cols (fst <$> d)) [] data.

(** [pd.DataFrame(data)] for a list of dicts; a missing key is NaN. *)
Definition DataFrame (data : list dict) : frame :=
  let cols := frame_columns data in
  Frame cols ((fun d => (fun c => default VNaN (dict_get d c)) <$> cols) <$> data).

(** [pd.DataFrame(xs, columns=[name])] for a list of strings. *)
Definition DataFrame_column (name : string) (xs : list string) : frame :=
  Frame [name] ((fun x => [VStr x]) <$> xs).

(** What [to_csv] prints for a cell ([na_rep] is the empty text). *)
Definition cell_text (repr : string -> string) (v : value) : string :=
  match v with
  | VStr s => s
  | VInt z => Py.str z
  | VFloat l => repr l
  | VBool b => if b then "True" else "False"
  | VNaN => ""
  end.

(** [df.to_csv(path, index=False)] *)
Definition render (repr : string -> string) (df : frame) : csv :=
  Csv (columns df) (map (map (cell_text repr)) (rows df)).

Definition to_csv (df : frame) (path : string) : M unit :=
  emit (ToCsv path);;
  st ← get_state;
  write_file path (render (float_repr st) df).

(** The reader's default NA markers. *)
Definition na_values : list string :=
  [""; "#N/A"; "#N/A N/A"; "#NA"; "-1.#IND"; "-1.#QNAN"; "-NaN"; "-nan";
   "1.#IND"; "1.#QNAN"; "<NA>"; "N/A"; "NA"; "NULL"; "NaN"; "None";
   "n/a"; "nan"; "null"].

Definition is_na (t : string) : bool := existsb (String.eqb t) na_values.

Definition isspace_ascii (c : ascii) : bool :=
  let n := N_of_ascii c in ((9 <=? n) && (n <=? 13) || (n =? 32))%N.

Fixpoint lstrip_ascii (s : string) : string :=
  match s with
  | "" => ""
  | String c r => if isspace_ascii c then lstrip_ascii r else s
  end.

Fixpoint rstrip_ascii (s : string) : string :=
  match s with
  | "" => ""
  | String c r =>
      match rstrip_ascii r with
      | "" => if isspace_ascii c then "" else String c ""
      | r' => String c r'
      end
  end.

(** The longest run of digits at the head of [s], and the rest. *)
Fixpoint digit_span (s : string) : string * string :=
  match s with
  | "" => ("", "")
  | String c r =>
      if Py.isdigit c
      then let '(ds, rest) := digit_span r in (String c ds, rest)
      else ("", s)
  end.

Definition in_int64 (z : Z) : bool := (- 2 ^ 63 <=? z) && (z <? 2 ^ 63).
Definition in_uint64 (z : Z) : bool := (0 <=? z) && (z <? 2 ^ 64).

(** What the tokenizer's integer readers say of a token. *)
Inductive int_read :=
  | IntOk (z : Z)
  | IntOverflow
  | IntInvalid
  | IntSigned.     (* the unsigned reader met a minus sign *)

(** The signed reader: blanks, a sign, digits, blanks.  It gives up on
    the digit that leaves the range, before it looks at what follows. *)
Definition int64_token (t : string) : int_read :=
  let '(neg, s) := Py.take_sign (lstrip_ascii t) in
  let '(ds, rest) := digit_span s in
  match Py.digits ds with
  | None => IntInvalid
  | Some n =>
      let z := if neg : bool then - n else n in
      if negb (in_int64 z) then IntOverflow
      else if String.eqb (lstrip_ascii rest) "" then IntOk z
      else IntInvalid
  end.

(** The unsigned reader, tried when the signed one overflowed. *)
Definition uint64_token (t : string) : int_read :=
  match lstrip_ascii t with
  | String "-" _ => IntSigned
  | s =>
      let '(_, s) := Py.take_sign s in
      let '(ds, rest) := digit_span s in
      match Py.digits ds with
      | None => IntInvalid
      | Some n =>
          if negb (in_uint64 n) then IntOverflow
          else if String.eqb (lstrip_ascii rest) "" then IntOk n
          else IntInvalid
      end
  end.

(** Does the float reader take the digits, point and exponent of [b]. *)
Definition decimal_token (b : string) : bool :=
  let '(mant, ex) := Py.split_exponent b in
  let '(ip, fp) := Py.split_point mant in
  negb (String.eqb ip "" && String.eqb fp "")
  && bool_decide (is_Some (Py.digits_or_zero ip))
  && bool_decide (is_Some (Py.digits_or_zero fp))
  && match ex with
     | None => true
     | Some xs => bool_decide (is_Some (Py.digits (snd (Py.take_sign xs))))
     end.

(** Is [t] a number for the float reader: blanks, a sign, digits with an
    optional point and exponent, blanks; or a signed infinity. *)
Definition float_token (t : string) : bool :=
  let w := Py.lower (snd (Py.take_sign t)) in
  String.eqb w "inf" || String.eqb w "infinity"
  || decimal_token (snd (Py.take_sign (rstrip_ascii (lstrip_ascii t)))).

Definition bool_token (t : string) : option bool :=
  if existsb (String.eqb t) ["True"; "TRUE"; "true"] then Some true
  else if existsb (String.eqb t) ["False"; "FALSE"; "false"] then Some false
  else None.

(** How the reader reads a column. *)
Inductive dtype :=
  | Int64        (* signed integers, none missing *)
  | UInt64       (* unsigned integers, none missing *)
  | Float64      (* floats, NaN where missing *)
  | Bool         (* booleans, NaN where missing *)
  | Object       (* texts, NaN where missing *)
  | ObjectAsIs.  (* texts, the NA markers too *)

(** The first token that stops the signed reader, if any: missing cells
    are passed over. *)
Fixpoint int64_stop (toks : list string) : option int_read :=
  match toks with
  | [] => None
  | t :: toks' =>
      if is_na t then int64_stop toks'
      else match int64_token t with
           | IntOk _ => int64_stop toks'
           | stop => Some stop
           end
  end.

(** The unsigned reader over a column: the first token that stops it, or
    what it has seen: a missing cell, a minus sign, a value above the
    signed range. *)
Fixpoint uint64_scan (null sint uint : bool) (toks : list string)
  : int_read + bool * bool * bool :=
  match toks with
  | [] => inr (null, sint, uint)
  | t :: toks' =>
      if is_na t then uint64_scan true sint uint toks'
      else match uint64_token t with
           | IntSigned => uint64_scan null true uint toks'
           | IntOk z => uint64_scan null sint (uint || negb (in_int64 z)) toks'
           | stop => inl stop
           end
  end.

(** Floats, then booleans, then texts. *)
Definition infer_float_bool_object (toks : list string) : dtype :=
  if forallb (fun t => is_na t || float_token t) toks then Float64
  else if forallb (fun t => is_na t || bool_decide (is_Some (bool_token t))) toks
  then Bool
  else Object.

(** The reader tries signed integers first; a column of them with
    missing cells is then turned into floats.  When an integer leaves the
    signed range it tries unsigned ones, and keeps the texts when that
    fails by range or by a clash with a sign or a missing cell.  A token
    that is no integer sends it on to floats, booleans and texts. *)
Definition infer_dtype (toks : list string) : dtype :=
  match int64_stop toks with
  | None => if existsb is_na toks then Float64 else Int64
  | Some IntOverflow =>
      match uint64_scan false false false toks with
      | inl IntOverflow => Object
      | inl _ => infer_float_bool_object toks
      | inr (null, sint, uint) =>
          if uint && (null || sint) then ObjectAsIs
          else if sint then Object
          else UInt64
      end
  | Some _ => infer_float_bool_object toks
  end.

Definition convert (ty : dtype) (t : string) : value :=
  match ty with
  | Int64 => match int64_token t with IntOk z => VInt z | _ => VNaN end
  | UInt64 => match uint64_token t with IntOk z => VInt z | _ => VNaN end
  | Float64 => if is_na t then VNaN else VFloat t
  | Bool => match bool_token t with Some b => VBool b | None => VNaN end
  | Object => if is_na t then VNaN else VStr t
  | ObjectAsIs => VStr t
  end.

(** Column [j] of the data lines; a short line is padded with missing
    cells. *)
Definition column (j : nat) (lines : list (list string)) : list string :=
  (fun line => nth j line "") <$> lines.

(** The table read from a file's text. *)
Definition parse (text : csv) : frame :=
  let types := imap (fun j _ => infer_dtype (column j (body text))) (header text) in
  Frame (header text)
        ((fun line => imap (fun j ty => convert ty (nth j line "")) types)
           <$> body text).

(** [pd.read_csv(path)] *)
Definition read_csv (path : string) : M frame :=
  emit (ReadCsv path);;
  st ← get_state;
  match files st !! path with
  | None => raise (FileNotFoundError path)
  | Some text =>
      match header text with
      | [] => raise (EmptyDataError path)
      | _ => mret (parse text)
      end
  end.

(** [df.to_dict("records")] *)
Definition to_dict_records (df : frame) : list dict :=
  (fun r => zip (columns df) r) <$> rows df.

End Pd.

(** ** The checkpoint store *)

(** [os.path.join(a, b)] for a relative [b]. *)
Definition path_join (a b : string) : string := a ++ "/" ++ b.

(** [os.path.basename(p)] *)
Definition basename (p : string) : string :=
  default "" (last (Py.split_on "/" p)).

(** [f"checkpoint_{batch_id}.csv"] *)
Definition checkpoint_name (batch_id : Z) : string :=
  "checkpoint_" ++ Py.str batch_id ++ ".csv".

Definition checkpoint_path (batch_id : Z) : string :=
  path_join checkpoint_dir (checkpoint_name batch_id).

Definition save_checkpoint (batch_id : Z) (data : list dict) : M unit :=
  match data with
  | [] => mret tt
  | _ => Pd.to_csv (Pd.DataFrame data) (checkpoint_path batch_id)
  end.

(** [s.endswith(suffix)] *)
Definition endswith (s suffix : string) : bool :=
  let n := String.length s in
  let m := String.length suffix in
  (m <=? n)%nat && String.eqb (String.substring (n - m) m s) suffix.

(** Does [path] match [os.path.join(checkpoint_dir, "checkpoint_*.csv")]:
    a name in that directory that starts with [checkpoint_] and ends with
    [.csv], the star taking what is in between. *)
Definition glob_match (path : string) : bool :=
  let dir := checkpoint_dir ++ "/" in
  let name := String.substring (String.length dir)
                               (String.length path - String.length dir) path in
  String.prefix dir path
  && negb (Py.contains name "/")
  && String.prefix "checkpoint_" name
  && endswith name ".csv"
  && (15 <=? String.length name)%nat.

Definition string_le (a b : string) : Prop := String.leb a b = true.
#[export] Instance string_le_dec : RelDecision string_le :=
  fun a b => decide (String.leb a b = true).

(** [sorted(glob.glob(...))] *)
Definition glob_checkpoints (fs : gmap string csv) : list string :=
  merge_sort string_le (List.filter glob_match (fst <$> map_to_list fs)).

(** [int(os.path.basename(f).split("_")[1].split(".")[0])];
    [None] when it raises. *)
Definition batch_num_of (f : string) : option Z :=
  piece ← Py.split_on "_" (basename f) !! 1%nat;
  stem ← Py.split_on "." piece !! 0%nat;
  Py.int stem.

(** The body of lines 85-90. *)
Definition add_completed (completed : gset Z) (f : string) : gset Z :=
  match batch_num_of f with
  | Some batch_num => completed ∪ {[batch_num]}
  | None => completed
  end.

(** The set [load_completed_batches] finds in a file system. *)
Definition completed_of (fs : gmap string csv) : gset Z :=
  foldl add_completed ∅ (glob_checkpoints fs).

Definition load_completed_batches : M (gset Z) :=
  st ← get_state;
  mret (completed_of (files st)).

(** ** main *)

Definition batch_size : nat := 500.

(** [range(0, stop, step)], [fuel] bounding the number of elements. *)
Fixpoint range_from (fuel start stop step : nat) : list nat :=
  match fuel with
  | O => []
  | S fuel' =>
      if (start <? stop)%nat
      then start :: range_from fuel' (start + step) stop step
      else []
  end.

Definition range (stop step : nat) : list nat := range_from stop 0 stop step.

(** The order in which the futures of one batch complete: at each step
    the pool picks one of the futures still pending ([choice mod] their
    number).  Every order of completion is obtained from some choices. *)
Fixpoint completion_order {A} (fuel : nat) (choices : list nat) (pending : list A)
  : list A :=
  match fuel, pending with
  | S fuel', x :: _ =>
      let k := (hd 0%nat choices mod length pending)%nat in
      nth k pending x :: completion_order fuel' (tl choices) (delete k pending)
  | _, _ => []
  end.

(** The order in which the pool completes the calls of a batch. *)
Definition pool_order (st : state) (batch_ids : list string) : list string :=
  completion_order (length batch_ids) (schedule st batch_ids) batch_ids.

(** Lines 129-131: what is done with one completed future. *)
Definition pool_body (batch_data : list dict) (fid : string) : M (list dict) :=
  result ← fetch_entry fid;
  match result with
  | Some r => mret (batch_data ++ [r])%list
  | None => mret batch_data
  end.

(** Lines 125-131: the calls of one batch run on the pool.  A call
    touches shared state once, when it appends to [skipped_entries], so
    the calls are taken one after another, in the order they complete. *)
Definition run_pool (batch_ids : list string) : M (list dict) :=
  st ← get_state;
  for_each (pool_order st batch_ids) pool_body [].

(** Lines 114 and 115. *)
Definition batch_num (i : nat) : Z := Z.of_nat (i / batch_size) + 1.
Definition batch_ids (all_ids : list string) (i : nat) : list string :=
  take batch_size (drop i all_ids).

(** One turn of the loop of lines 113-137. *)
Definition process_batch (all_ids : list string) (completed_batches : gset Z)
    (all_data : list dict) (i : nat) : M (list dict) :=
  if decide (batch_num i ∈ completed_batches) then
    df ← Pd.read_csv (checkpoint_path (batch_num i));
    mret (all_data ++ Pd.to_dict_records df)%list
  else
    batch_data ← run_pool (batch_ids all_ids i);
    save_checkpoint (batch_num i) batch_data;;
    mret (all_data ++ batch_data)%list.

(** Lines 111-137. *)
Definition batch_loop (all_ids : list string) (completed_batches : gset Z)
  : M (list dict) :=
  for_each (range (length all_ids) batch_size)
           (process_batch all_ids completed_batches) [].

(** Lines 100-103. *)
Definition collect_ids (listing_pages : list string) : M (list string) :=
  for_each listing_pages
    (fun (all_ids : list string) page =>
       ids ← extract_ids page; mret (all_ids ++ ids)%list)
    [].

Definition final_file : string := "flavonoids_final.csv".
Definition skipped_file : string := "skipped_entries.csv".

(** Lines 140-145. *)
Definition write_outputs (all_data : list dict) : M unit :=
  Pd.to_csv (Pd.DataFrame all_data) final_file;;
  st ← get_state;
  match skipped_entries st with
  | [] => mret tt
  | _ => Pd.to_csv (Pd.DataFrame_column "Skipped_IDs" (skipped_entries st)) skipped_file
  end.

(** Lines 100-145, once the listing pages are known. *)
Definition crawl (listing_pages : list string) : M (list dict) :=
  all_ids ← collect_ids listing_pages;
  completed_batches ← load_completed_batches;
  all_data ← batch_loop all_ids completed_batches;
  write_outputs all_data;;
  mret all_data.

(** [main()]: the records collected, or [None] when [fuel] turns of the
    pagination loop were not enough. *)
Definition main (fuel : nat) : M (option (list dict)) :=
  listing_pages ← get_listing_pages fuel;
  match listing_pages with
  | None => mret None
  | Some pages => all_data ← crawl pages; mret (Some all_data)
  end.

(** ** Notions used in the statements *)

(** Every character of [s] passes [p]. *)
Fixpoint all_chars (p : ascii -> bool) (s : string) : bool :=
  match s with
  | "" => true
  | String c r => p c && all_chars p r
  end.

(** The characters of a printed integer. *)
Definition numeric_char (c : ascii) : bool := Py.isdigit c || Ascii.eqb c "-".

(** The value of a decimal numeral read from its first digit, as
    [Py.digits_value] reads it. *)
Fixpoint uint_value (acc : Z) (d : Decimal.uint) : Z :=
  match d with
  | Decimal.Nil => acc
  | Decimal.D0 d => uint_value (10 * acc + 0) d
  | Decimal.D1 d => uint_value (10 * acc + 1) d
  | Decimal.D2 d => uint_value (10 * acc + 2) d
  | Decimal.D3 d => uint_value (10 * acc + 3) d
  | Decimal.D4 d => uint_value (10 * acc + 4) d
  | Decimal.D5 d => uint_value (10 * acc + 5) d
  | Decimal.D6 d => uint_value (10 * acc + 6) d
  | Decimal.D7 d => uint_value (10 * acc + 7) d
  | Decimal.D8 d => uint_value (10 * acc + 8) d
  | Decimal.D9 d => uint_value (10 * acc + 9) d
  end.

(** The finite binary64 values: a significand of 53 bits at an exponent
    between -1074 and 971, normal or at the least exponent. *)
Definition binary64 (m e : Z) : Prop :=
  0 <= m < 2 ^ 53 /\ -1074 <= e <= 971 /\ (2 ^ 52 <= m \/ e = -1074).

(** [m * 2 ^ e] in units of [2 ^ -1074], the least positive value. *)
Definition units (m e : Z) : Z := m * 2 ^ (e + 1074).

(** How far [m * 2 ^ e] is from [num / den], in units and times [den]. *)
Definition distance (num den m e : Z) : Z :=
  Z.abs (num * 2 ^ 1074 - den * units m e).

(** [x] is [num / den] rounded to the nearest binary64, ties to the even
    significand, and to infinity from half a unit in the last place above
    the largest finite value. *)
Definition correctly_rounded (num den : Z) (x : Py.float64) : Prop :=
  match x with
  | Py.Finite _ m e =>
      binary64 m e
      /\ forall m' e', binary64 m' e' ->
           distance num den m e <= distance num den m' e'
           /\ (distance num den m e = distance num den m' e' ->
               units m' e' <> units m e -> Z.even m = true)
  | Py.Inf _ => (2 ^ 1024 - 2 ^ 970) * den <= num
  | Py.NaN => False
  end.

(** The state after further effects were traced. *)
Definition traced (st : state) (evs : list event) : state :=
  set_trace (trace st ++ evs) st.

(** The record a call of [fetch_entry] returns in a given web, if any. *)
Definition served_record (w : string -> response) (fid : string) : option dict :=
  match w (entry_url fid) with
  | Serves soup =>
      let f := scan_rows (table_tr soup) in
      if usable f then Some (entry fid f) else None
  | Fails _ => None
  end.

(** The identifier field of a record. *)
Definition record_id (r : dict) : option value := Pd.dict_get r "Flavonoid_ID".

(** The identifier a record was fetched for. *)
Definition record_fid (r : dict) : string :=
  match record_id r with
  | Some (VStr fid) => fid
  | _ => ""
  end.

(** Is a call of [fetch_entry] one that skips, in a given web. *)
Definition skips (w : string -> response) (fid : string) : bool :=
  match served_record w fid with
  | Some _ => false
  | None => true
  end.


(** A row that has a label and a value, the label containing [kw]. *)
Definition labelled (kw : string) (cells : list string) : bool :=
  match cells with
  | c0 :: _ :: _ => Py.contains (Py.lower c0) kw
  | _ => false
  end.

(** The value cell of a row. *)
Definition row_value (cells : list string) : string := nth 1 cells "".

(** The three fields, with the keyword that names each in a label. *)
Inductive field := FSmiles | FName | FMass.

#[export] Instance field_eq_dec : EqDecision field.
Proof. solve_decision. Defined.

Definition keyword (t : field) : string :=
  match t with
  | FSmiles => "smiles"
  | FName => "systematic name"
  | FMass => "average mass"
  end.

Definition get_field (t : field) (f : fields) : string :=
  match t with
  | FSmiles => smiles f
  | FName => systematic_name f
  | FMass => avg_mass f
  end.

(** What a row whose label has the keyword of [t] holds for that field:
    its value, for the mass the integer read from it (empty when there is
    none). *)
Definition held (t : field) (cells : list string) : string :=
  match t with
  | FSmiles | FName => row_value cells
  | FMass => default "" (parse_mass (row_value cells))
  end.

(** The last row labelled with the keyword of [t] decides the field. *)
Definition last_match_wins (t : field) : Prop :=
  forall before row after,
    labelled (keyword t) row = true ->
    Forall (fun r => labelled (keyword t) r = false) after ->
    get_field t (scan_rows (before ++ row :: after)) = held t row.

(** The field a row assigns, by the tests of lines 50-58 in their order:
    none when no keyword is found, or when the mass does not parse. *)
Definition assigns (cells : list string) : option field :=
  if labelled "smiles" cells then Some FSmiles
  else if labelled "systematic name" cells then Some FName
  else if labelled "average mass" cells then
    match parse_mass (row_value cells) with
    | Some _ => Some FMass
    | None => None
    end
  else None.

(** A row labelled with the mass keyword decides the mass field: the
    integer read from its value, empty when there is none. *)
Definition mass_row_decides : Prop :=
  forall before cells,
    labelled "average mass" cells = true ->
    avg_mass (scan_rows (before ++ [cells]))
    = default "" (parse_mass (row_value cells)).

(** The words of the specification for the mass: the first
    whitespace-delimited token, read as a float, truncated, printed. *)
Definition truncated_mass (value : string) : option string :=
  match Py.split_ws value with
  | [] => None
  | tok :: _ =>
      match Py.float tok with
      | Some (Py.Finite neg m e) =>
          let magnitude := if 0 <=? e then m * 2 ^ e else m / 2 ^ (- e) in
          Some (Py.str (if neg then - magnitude else magnitude))
      | _ => None
      end
  end.

(** The records the script loads from a checkpoint file. *)
Definition reloaded (text : csv) : list dict :=
  Pd.to_dict_records (Pd.parse text).

(** The keys of a record, and the texts it holds for them. *)
Definition four_columns : list string :=
  ["Flavonoid_ID"; "Systematic_Name"; "SMILES"; "Average_Mass"].

Definition entry_texts (p : string * fields) : list string :=
  [fst p; systematic_name (snd p); smiles (snd p); avg_mass (snd p)].


(** The records [fetch_entry] makes for identifiers with their fields. *)
Definition entries (l : list (string * fields)) : list dict :=
  (fun p => entry (fst p) (snd p)) <$> l.




(** The effects the turn of batch [n] may have. *)
Definition batch_event (n : Z) (ev : event) : Prop :=
  match ev with
  | Get _ | ReadCsv _ => True
  | ToCsv path => path = checkpoint_path n
  end.

(** From [st] to [st'] nothing happened but requests. *)
Definition only_requests (st st' : state) : Prop :=
  web st' = web st
  /\ schedule st' = schedule st
  /\ float_repr st' = float_repr st
  /\ files st' = files st
  /\ skipped_entries st' = skipped_entries st
  /\ exists urls, trace st' = (trace st ++ (Get <$> urls))%list.

#[export] Instance event_eq_dec : EqDecision event.
Proof. solve_decision. Defined.

(** How often [path] was written in a trace. *)
Definition writes_of (path : string) (evs : list event) : nat :=
  length (List.filter (fun ev => bool_decide (ev = ToCsv path)) evs).

(** What the pagination loop learns from one listing page. *)
Inductive step :=
  | Stop                     (* no next link: leave the loop *)
  | Next (url : string)      (* go on with this page *)
  | Error (e : exn).         (* the turn raises *)

Definition listing_step (w : string -> response) (u : string) : step :=
  match w u with
  | Fails e => Error e
  | Serves soup =>
      match find_next_link soup with
      | None => Stop
      | Some next_link =>
          match a_href next_link with
          | None => Error (KeyError "href")
          | Some href => Next (BASE_URL ++ href)
          end
      end
  end.

(** [listing_chain w u urls]: following the next links from [u] visits
    [urls], the last of which has no next link. *)
Inductive listing_chain (w : string -> response) : string -> list string -> Prop :=
  | chain_stop u :
      listing_step w u = Stop -> listing_chain w u [u]
  | chain_next u u' urls :
      listing_step w u = Next u' -> listing_chain w u' urls ->
      listing_chain w u (u :: urls).

(** [listing_error w u urls e]: following the next links from [u] visits
    [urls], the last of which raises [e]. *)
Inductive listing_error (w : string -> response) : string -> list string -> exn -> Prop :=
  | error_here u e :
      listing_step w u = Error e -> listing_error w u [u] e
  | error_later u u' urls e :
      listing_step w u = Next u' -> listing_error w u' urls e ->
      listing_error w u (u :: urls) e.

(** The paginator returns or raises in every web. *)
Definition paginator_always_ends : Prop :=
  forall st, exists fuel, fst (get_listing_pages fuel st) <> Ok None.

(** ** Example webs *)

(** Two listing pages and three entries: one with a SMILES and a mass,
    one without any field, one that cannot be fetched. *)
Definition demo_web (url : string) : response :=
  if String.eqb url LISTING_URL then
    Serves (Page [Anchor (Some "previous 500") None;
                  Anchor (Some "Next 500") (Some "/page2")]
                 ["FL0000000001"; " FL0000000002 "; "Main page"] [])
  else if String.eqb url (BASE_URL ++ "/page2") then
    Serves (Page [Anchor None (Some "/help")] ["FL0000000003"] [])
  else if String.eqb url (entry_url "FL0000000001") then
    Serves (Page [] [] [["SMILES"; "CCO"]; ["Average Mass"; "268.2 g/mol"]])
  else if String.eqb url (entry_url "FL0000000002") then
    Serves (Page [] [] [["Comment"; "none"]])
  else Fails (RequestException url).

Definition demo_state : state :=
  State demo_web (fun _ => [1%nat]) (fun literal => literal) ∅ [] [].

(** Every page links to a next one. *)
Definition looping_web (url : string) : response :=
  Serves (Page [Anchor (Some "next 500") (Some "/more")] [] []).

Definition looping_state : state :=
  State looping_web (fun _ => []) (fun literal => literal) ∅ [] [].

(** The second listing page cannot be fetched. *)
Definition broken_web (url : string) : response :=
  if String.eqb url LISTING_URL then
    Serves (Page [Anchor (Some "next 500") (Some "/page2")] ["FL0000000001"] [])
  else Fails (RequestException url).

Definition broken_state : state :=
  State broken_web (fun _ => []) (fun literal => literal) ∅ [] [].

(** The demo web again, with the checkpoint of batch 1 left by an
    earlier run. *)
Definition resumed_state : state :=
  State demo_web (fun _ => [1%nat]) (fun literal => literal)
        {[ checkpoint_path 1 :=
             Csv four_columns [["FL0000000009"; "nonane"; "CCCCCCCCC"; "128"]] ]}
        [] [].



(** The demo web, with a copy of a checkpoint left under another name:
    the directory scan reads batch 1 off it, and [checkpoint_1.csv] is
    not there. *)
Definition stray_state : state :=
  State demo_web (fun _ => []) (fun literal => literal)
        {[ "checkpoints/checkpoint_1_old.csv" :=
             Csv four_columns [["FL0000000009"; "nonane"; "CCCCCCCCC"; "128"]] ]}
        [] [].

(** The identifiers a listing page gives in a web: the stripped anchor
    texts that pass the test of line 34. *)
Definition page_ids (w : string -> response) (url : string) : list string :=
  match w url with
  | Serves soup => List.filter valid_id (Py.strip <$> ul_li_a soup)
  | Fails _ => []
  end.

(** The page at [url] can be fetched. *)
Definition served (w : string -> response) (url : string) : Prop :=
  exists soup, w url = Serves soup.

(** The records batch [i] contributes to a run that starts from the files
    [fs] in the web [w]: those of its checkpoint when the directory scan
    reports the batch, and else those its identifiers have in the web, in
    the order the pool completed them. *)
Definition batch_part (w : string -> response) (fs : gmap string csv)
    (all_ids : list string) (i : nat) (part : list dict) : Prop :=
  if decide (batch_num i ∈ completed_of fs) then
    exists text, fs !! checkpoint_path (batch_num i) = Some text
                 /\ header text <> []
                 /\ part = reloaded text
  else
    exists order, order ≡ₚ batch_ids all_ids i
                  /\ part = omap (served_record w) order.

(** A file of the checkpoint directory named after batch [n], with more
    text between the number and the extension: [checkpoint_3_old.csv] is
    [renamed_checkpoint 3 "_" "old"], [checkpoint_3.bak.csv] is
    [renamed_checkpoint 3 "." "bak"]. *)
Definition renamed_checkpoint (n : Z) (sep : ascii) (more : string) : string :=
  path_join checkpoint_dir
            (("checkpoint_" ++ Py.str n ++ String sep more) ++ ".csv").

(** One listing page, whose only list anchor is no identifier. *)
Definition bare_state : state :=
  State (fun _ => Serves (Page [] ["Index:FL"] []))
        (fun _ => []) (fun literal => literal) ∅ [] [].

(** * Properties *)

(** ** The Python and pandas operations on examples *)

Example strip_example :
  Py.strip "  FL0000000002  " = "FL0000000002"
  /\ Py.lower "Average Mass" = "average mass"
  /\ Py.contains "canonical smiles" "smiles" = true
  /\ Py.contains "smile" "smiles" = false.
Proof. by vm_compute. Qed.

Example split_example :
  Py.split_ws " 268.2   g/mol " = ["268.2"; "g/mol"]
  /\ Py.split_ws "   " = []
  /\ Py.split_on "_" "checkpoint_12.csv" = ["checkpoint"; "12.csv"]
  /\ Py.split_on "." "12.csv" = ["12"; "csv"]
  /\ Py.split_on "." "" = [""].
Proof. by vm_compute. Qed.

Example int_example :
  Py.int " 12 " = Some 12
  /\ Py.int "-007" = Some (-7)
  /\ Py.int "1_000" = Some 1000
  /\ Py.int "1__0" = None
  /\ Py.int "12a" = None
  /\ Py.int "" = None
  /\ Py.str (-42) = "-42"
  /\ Py.str 0 = "0".
Proof. by vm_compute. Qed.

(** 268.2 is 0x1.0C33333333333p+8, and 1e23 is not a float. *)
Example float_example :
  Py.float "268.2" = Some (Py.Finite false 4718224297112371 (-44))
  /\ (Py.float "1e23" ≫= Py.int_of_float) = Some 99999999999999991611392
  /\ (Py.float "0.99999999999999999999" ≫= Py.int_of_float) = Some 1
  /\ Py.float "5e-324" = Some (Py.Finite false 1 (-1074))
  /\ Py.float "1.7976931348623157e308"
     = Some (Py.Finite false 9007199254740991 971)
  /\ Py.float "1e400" = Some (Py.Inf false)
  /\ Py.float "-Infinity" = Some (Py.Inf true)
  /\ Py.float "1_0.5e1" = Some (Py.Finite false 7388718138654720 (-46))
  /\ Py.float "." = None
  /\ Py.float "1e" = None
  /\ Py.float "0x10" = None.
Proof. by vm_compute. Qed.

Example parse_mass_example :
  parse_mass "268.2 g/mol" = Some "268"
  /\ parse_mass "-2.7" = Some "-2"
  /\ parse_mass "1e3 Da" = Some "1000"
  /\ parse_mass "ca. 268" = None
  /\ parse_mass "inf" = None
  /\ parse_mass "nan" = None
  /\ parse_mass "" = None.
Proof. by vm_compute. Qed.

Example checkpoint_name_example :
  checkpoint_path 12 = "checkpoints/checkpoint_12.csv"
  /\ batch_num_of "checkpoints/checkpoint_12.csv" = Some 12
  /\ batch_num_of "checkpoints/checkpoint_007.csv" = Some 7
  /\ batch_num_of "checkpoints/checkpoint_3_old.csv" = Some 3
  /\ batch_num_of "checkpoints/checkpoint_3.bak.csv" = Some 3
  /\ batch_num_of "checkpoints/checkpoint_final.csv" = None
  /\ glob_match "checkpoints/checkpoint_12.csv" = true
  /\ glob_match "checkpoints/checkpoint_.csv" = true
  /\ glob_match "checkpoints/checkpoint_12.csv.tmp" = false
  /\ glob_match "checkpoints/old/checkpoint_12.csv" = false
  /\ glob_match "checkpoint_12.csv" = false.
Proof. by vm_compute. Qed.

Example infer_dtype_example :
  Pd.infer_dtype ["268"; "270"] = Pd.Int64
  /\ Pd.infer_dtype ["268"; ""] = Pd.Float64
  /\ Pd.infer_dtype [""; ""] = Pd.Float64
  /\ Pd.infer_dtype ["268"; "270.5"] = Pd.Float64
  /\ Pd.infer_dtype ["True"; "false"] = Pd.Bool
  /\ Pd.infer_dtype ["CCO"; ""] = Pd.Object
  /\ Pd.infer_dtype ["268"; "CCO"] = Pd.Object
  /\ Pd.infer_dtype ["10000000000000000000"; "5"] = Pd.UInt64
  /\ Pd.infer_dtype ["10000000000000000000"; ""] = Pd.ObjectAsIs
  /\ Pd.infer_dtype ["100000000000000000000"; "5"] = Pd.Object.
Proof. by vm_compute. Qed.

(** A first run on the demo web, and a second one from the files it
    left.  The run collects one record, skips two identifiers and saves
    the checkpoint of batch 1; the rerun reads it back, with the empty name
    as NaN and the mass as an integer. *)
Example demo_run :
  let out := main 5 demo_state in
  fst out
  = Ok (Some [entry "FL0000000001" (Fields "CCO" "" "268")])
  /\ skipped_entries (snd out) = ["FL0000000002"; "FL0000000003"]
  /\ trace (snd out)
     = [Get LISTING_URL; Get (BASE_URL ++ "/page2");
        Get LISTING_URL; Get (BASE_URL ++ "/page2");
        Get (entry_url "FL0000000002"); Get (entry_url "FL0000000001");
        Get (entry_url "FL0000000003");
        ToCsv (checkpoint_path 1); ToCsv final_file; ToCsv skipped_file]
  /\ let again := main 5 (set_trace [] (set_skipped [] (snd out))) in
     fst again
     = Ok (Some [[("Flavonoid_ID", VStr "FL0000000001");
                  ("Systematic_Name", VNaN);
                  ("SMILES", VStr "CCO");
                  ("Average_Mass", VInt 268)]])
     /\ trace (snd again)
        = [Get LISTING_URL; Get (BASE_URL ++ "/page2");
           Get LISTING_URL; Get (BASE_URL ++ "/page2");
           ReadCsv (checkpoint_path 1); ToCsv final_file].
Proof. by vm_compute. Qed.

(** ** Running a computation *)

Lemma bind_ok {A B} (m : M A) (f : A -> M B) st a st' :
  m st = (Ok a, st') -> (m ≫= f) st = f a st'.
Proof. intros H. unfold mbind, M_bind. by rewrite H. Qed.

Lemma bind_raise {A B} (m : M A) (f : A -> M B) st e st' :
  m st = (Raise e, st') -> (m ≫= f) st = (Raise e, st').
Proof. intros H. unfold mbind, M_bind. by rewrite H. Qed.

Lemma requests_get_serves st url p :
  web st url = Serves p ->
  requests_get url st = (Ok p, set_trace (trace st ++ [Get url]) st).
Proof.
  intros H. unfold requests_get, mbind, M_bind, emit, get_state. simpl.
  by rewrite H.
Qed.

Lemma requests_get_fails st url e :
  web st url = Fails e ->
  requests_get url st = (Raise e, set_trace (trace st ++ [Get url]) st).
Proof.
  intros H. unfold requests_get, mbind, M_bind, emit, get_state. simpl.
  by rewrite H.
Qed.

(** ** extract_ids *)

Lemma extract_loop acc (texts : list string) :
  foldl extract_step acc texts
  = (acc ++ List.filter valid_id (Py.strip <$> texts))%list.
Proof.
  revert acc. induction texts as [|t texts IH]; intros acc; simpl.
  - by rewrite app_nil_r.
  - rewrite IH. unfold extract_step. destruct (valid_id (Py.strip t)); simpl.
    + by rewrite <- app_assoc.
    + done.
Qed.

Lemma valid_id_spec fid :
  valid_id fid = true <-> Py.len fid = 12 /\ Py.startswith fid "FL" = true.
Proof.
  unfold valid_id. rewrite andb_true_iff, Z.eqb_eq. tauto.
Qed.

(** C3.  On a listing page, [extract_ids] returns the stripped anchor
    texts that have length 12 and start with [FL], and only those: in the
    order of the page, each as often as it occurs there. *)
Theorem extract_ids_accepts st listing_url soup :
  web st listing_url = Serves soup ->
  let tokens := Py.strip <$> ul_li_a soup in
  exists ids,
    fst (extract_ids listing_url st) = Ok ids
    /\ ids = List.filter valid_id tokens
    /\ (forall t, t ∈ ids <->
          t ∈ tokens /\ Py.len t = 12 /\ Py.startswith t "FL" = true)
    /\ (forall t, Py.len t = 12 -> Py.startswith t "FL" = true ->
          count_occ string_dec ids t = count_occ string_dec tokens t).
Proof.
  intros Hweb tokens. exists (List.filter valid_id tokens).
  split; [|split; [done|split]].
  - unfold extract_ids. erewrite bind_ok by by apply requests_get_serves.
    simpl. by rewrite extract_loop.
  - intros t. rewrite list_elem_of_In, filter_In, valid_id_spec.
    by rewrite <- list_elem_of_In.
  - intros t Hlen Hpre.
    assert (Hv : valid_id t = true) by by apply valid_id_spec.
    clear -Hv. induction tokens as [|x xs IH]; [done|]. simpl.
    destruct (valid_id x) eqn:Hx; simpl.
    + destruct (string_dec x t); by rewrite IH.
    + destruct (string_dec x t) as [->|]; [congruence|done].
Qed.

(** ** fetch_entry *)



(** What a call does, by what the entry's URL answers. *)
Lemma fetch_entry_cases st fid :
  let st1 := set_trace (trace st ++ [Get (entry_url fid)]) st in
  fetch_entry fid st =
  match web st (entry_url fid) with
  | Serves soup =>
      let f := scan_rows (table_tr soup) in
      if usable f then (Ok (Some (entry fid f)), st1)
      else (Ok None, set_skipped (skipped_entries st ++ [fid]) st1)
  | Fails _ => (Ok None, set_skipped (skipped_entries st ++ [fid]) st1)
  end.
Proof.
  intros st1. unfold fetch_entry, try_except.
  destruct (web st (entry_url fid)) as [e|soup] eqn:Hweb.
  - erewrite bind_raise by by apply requests_get_fails. done.
  - erewrite bind_ok by by apply requests_get_serves.
    destruct (usable (scan_rows (table_tr soup))); done.
Qed.


Lemma fetch_entry_run st fid :
  fetch_entry fid st =
  (Ok (served_record (web st) fid),
   State (web st) (schedule st) (float_repr st) (files st)
         (skipped_entries st ++
            match served_record (web st) fid with
            | Some _ => []
            | None => [fid]
            end)
         (trace st ++ [Get (entry_url fid)])).
Proof.
  rewrite fetch_entry_cases. unfold served_record.
  destruct (web st (entry_url fid)) as [e|soup]; simpl; [done|].
  destruct (usable _); simpl; [|done].
  unfold set_trace. simpl. by rewrite app_nil_r.
Qed.

(** *** The pool *)

Lemma completion_order_perm {A} fuel choices (l : list A) :
  (length l <= fuel)%nat -> completion_order fuel choices l ≡ₚ l.
Proof.
  revert choices l. induction fuel as [|fuel IH]; intros choices l Hlen.
  - destruct l; [done|simpl in Hlen; lia].
  - destruct l as [|x l]; [done|].
    cbn [completion_order].
    set (k := (hd 0%nat choices mod length (x :: l))%nat).
    assert (Hk : (k < length (x :: l))%nat).
    { apply Nat.mod_upper_bound. simpl. lia. }
    assert (Hnth : (x :: l) !! k = Some (nth k (x :: l) x)).
    { destruct (nth_lookup_or_length (x :: l) k x); [done|lia]. }
    etrans; [|symmetry; apply (delete_Permutation (x :: l) k _ Hnth)].
    constructor. apply IH.
    rewrite length_delete by by eexists. simpl in *. lia.
Qed.

(** The schedule restricts nothing: every order of completion is the
    one some choices give. *)
Lemma completion_order_any {A} (l l' : list A) :
  l' ≡ₚ l -> exists choices, completion_order (length l) choices l = l'.
Proof.
  revert l. induction l' as [|x l' IH]; intros l Hp.
  - apply Permutation_nil_l in Hp. subst. by exists [].
  - assert (Hx : x ∈ l) by (rewrite <- Hp; left).
    apply list_elem_of_lookup in Hx as [k Hk].
    assert (Hlt : (k < length l)%nat) by by eapply lookup_lt_Some.
    assert (Hd : l' ≡ₚ delete k l).
    { apply (Permutation_cons_inv (a := x)). rewrite Hp. by apply delete_Permutation. }
    destruct (IH _ Hd) as [choices Hc].
    exists (k :: choices).
    destruct l as [|y l]; [done|].
    cbn [completion_order length hd tl].
    rewrite Nat.mod_small by (simpl in Hlt; lia).
    assert (Hn : nth k (y :: l) y = x).
    { destruct (nth_lookup_or_length (y :: l) k y) as [Hn|]; [|lia].
      rewrite Hk in Hn. by injection Hn. }
    rewrite Hn. f_equal.
    rewrite length_delete in Hc by by eexists. simpl in Hc.
    by rewrite Nat.sub_0_r in Hc.
Qed.

Lemma pool_order_perm st batch_ids : pool_order st batch_ids ≡ₚ batch_ids.
Proof. by apply completion_order_perm. Qed.

Lemma pool_body_run acc fid st :
  pool_body acc fid st =
  (Ok (acc ++ omap (served_record (web st)) [fid])%list,
   State (web st) (schedule st) (float_repr st) (files st)
         (skipped_entries st ++ List.filter (skips (web st)) [fid])
         (trace st ++ [Get (entry_url fid)])).
Proof.
  unfold pool_body. erewrite bind_ok by apply fetch_entry_run.
  simpl. unfold skips.
  destruct (served_record (web st) fid); simpl; [done|].
  by rewrite app_nil_r.
Qed.

Lemma pool_loop order acc st :
  for_each order pool_body acc st =
  (Ok (acc ++ omap (served_record (web st)) order)%list,
   State (web st) (schedule st) (float_repr st) (files st)
         (skipped_entries st ++ List.filter (skips (web st)) order)
         (trace st ++ (Get ∘ entry_url <$> order))).
Proof.
  revert acc st. induction order as [|fid order IH]; intros acc st.
  - simpl. unfold mret, M_ret. rewrite !app_nil_r. by destruct st.
  - cbn [for_each]. erewrite bind_ok by apply pool_body_run.
    rewrite IH. cbn [web schedule float_repr files skipped_entries trace].
    change (fid :: order) with ([fid] ++ order)%list.
    rewrite omap_app, List.filter_app, fmap_app, <- !app_assoc. done.
Qed.

Lemma run_pool_run st batch_ids :
  let order := pool_order st batch_ids in
  run_pool batch_ids st =
  (Ok (omap (served_record (web st)) order),
   State (web st) (schedule st) (float_repr st) (files st)
         (skipped_entries st ++ List.filter (skips (web st)) order)
         (trace st ++ (Get ∘ entry_url <$> order))).
Proof.
  intros order. unfold run_pool.
  erewrite bind_ok by reflexivity. by rewrite pool_loop.
Qed.

Lemma served_record_fid w fid r :
  served_record w fid = Some r -> record_fid r = fid /\ record_id r = Some (VStr fid).
Proof.
  unfold served_record. destruct (w (entry_url fid)) as [|soup]; [done|].
  simpl. destruct (usable _); [|done]. by intros [= <-].
Qed.

Lemma collected_or_skipped w (l : list string) :
  ((record_fid <$> omap (served_record w) l) ++ List.filter (skips w) l)%list ≡ₚ l.
Proof.
  induction l as [|fid l IH]; [done|]. simpl. unfold skips at 1.
  destruct (served_record w fid) as [r|] eqn:Hr; simpl.
  - apply served_record_fid in Hr as [-> _]. by constructor.
  - rewrite <- Permutation_middle. by constructor.
Qed.

Lemma fetch_entry_exclusive st fid :
  let out := fetch_entry fid st in
  let collected :=
    exists r, fst out = Ok (Some r)
              /\ record_id r = Some (VStr fid)
              /\ skipped_entries (snd out) = skipped_entries st in
  let skipped :=
    fst out = Ok None
    /\ skipped_entries (snd out) = (skipped_entries st ++ [fid])%list in
  (collected \/ skipped) /\ ~ (collected /\ skipped).
Proof.
  intros out collected skipped. subst out collected skipped.
  rewrite fetch_entry_run. simpl.
  destruct (served_record (web st) fid) as [r|] eqn:Hr.
  - split.
    + left. exists r. split; [done|]. split; [|by rewrite app_nil_r].
      by apply served_record_fid in Hr as [_ ?].
    + by intros [_ [? _]].
  - split.
    + by right.
    + by intros [(r & ? & _) _].
Qed.

(** C10.  A call of [fetch_entry] either returns a record that carries
    the identifier it was called with and leaves [skipped_entries] as it
    was, or returns [None] and appends that identifier once to
    [skipped_entries]; never both, never neither.  So the records
    collected for a batch and the identifiers the batch adds to
    [skipped_entries] are, together, the identifiers of the batch, each
    occurrence counted once. *)
Theorem each_identifier_once st :
  (forall fid,
     let out := fetch_entry fid st in
     let collected :=
       exists r, fst out = Ok (Some r)
                 /\ record_id r = Some (VStr fid)
                 /\ skipped_entries (snd out) = skipped_entries st in
     let skipped :=
       fst out = Ok None
       /\ skipped_entries (snd out) = (skipped_entries st ++ [fid])%list in
     (collected \/ skipped) /\ ~ (collected /\ skipped))
  /\ (forall batch_ids,
        exists batch_data new_skipped,
          fst (run_pool batch_ids st) = Ok batch_data
          /\ skipped_entries (snd (run_pool batch_ids st))
             = (skipped_entries st ++ new_skipped)%list
          /\ (((record_fid <$> batch_data) ++ new_skipped)%list ≡ₚ batch_ids)
          /\ (length batch_data + length new_skipped = length batch_ids)%nat).
Proof.
  split; [apply fetch_entry_exclusive|].
  intros batch_ids. rewrite run_pool_run. simpl.
  eexists _, _. split; [done|]. split; [done|].
  assert (Hp := collected_or_skipped (web st) (pool_order st batch_ids)).
  rewrite pool_order_perm in Hp at 3. split; [done|].
  apply Permutation_length in Hp.
  by rewrite length_app, length_fmap in Hp.
Qed.

(** *** Scanning the rows *)

(** A row changes the field it assigns, to what it holds for it, and no
    other. *)
Lemma scan_row_assigns f cells t :
  get_field t (scan_row f cells) =
  if decide (assigns cells = Some t) then held t cells else get_field t f.
Proof.
  unfold assigns, labelled, held, row_value.
  destruct cells as [|c0 [|c1 cells]]; simpl; [done..|].
  destruct (Py.contains (Py.lower c0) "smiles").
  { by destruct t. }
  destruct (Py.contains (Py.lower c0) "systematic name").
  { by destruct t. }
  destruct (Py.contains (Py.lower c0) "average mass"); [|done].
  destruct (parse_mass c1) as [m|]; by destruct t.
Qed.

Lemma scan_rows_snoc rows row :
  scan_rows (rows ++ [row]) = scan_row (scan_rows rows) row.
Proof. unfold scan_rows. by rewrite foldl_app. Qed.

Lemma scan_rows_last_assignment t before row after :
  assigns row = Some t ->
  Forall (fun r => assigns r <> Some t) after ->
  get_field t (scan_rows (before ++ row :: after)) = held t row.
Proof.
  intros Hrow. induction after as [|r after IH] using rev_ind; intros Hafter.
  - rewrite scan_rows_snoc, scan_row_assigns. by rewrite decide_True.
  - apply Forall_app in Hafter as [Hafter Hr].
    apply Forall_inv in Hr.
    change (before ++ row :: after ++ [r])%list
      with (before ++ (row :: after) ++ [r])%list.
    rewrite app_assoc, scan_rows_snoc, scan_row_assigns.
    simpl in Hr. rewrite (decide_False _ _ Hr). by apply IH.
Qed.

Lemma smiles_last_match_wins : last_match_wins FSmiles.
Proof.
  intros before row after Hrow Hafter.
  apply scan_rows_last_assignment.
  - unfold assigns. simpl in Hrow. by rewrite Hrow.
  - eapply Forall_impl; [exact Hafter|]. simpl. intros r Hr.
    unfold assigns. rewrite Hr.
    destruct (labelled "systematic name" r); [done|].
    destruct (labelled "average mass" r); [|done].
    by destruct (parse_mass _).
Qed.

(** C5, as the code has it.  The last row that assigns a field decides
    it: its value for the SMILES and the systematic name, the integer
    read from its value for the average mass.  A row assigns the field of
    the first keyword its label contains, in the order SMILES, systematic
    name, average mass, and no field when the mass does not parse.  For
    the SMILES that is the last row whose label contains the keyword. *)
Theorem last_assignment_wins :
  (forall t before row after,
     assigns row = Some t ->
     Forall (fun r => assigns r <> Some t) after ->
     get_field t (scan_rows (before ++ row :: after)) = held t row)
  /\ last_match_wins FSmiles.
Proof.
  split.
  - intros t before row after. apply scan_rows_last_assignment.
  - apply smiles_last_match_wins.
Qed.

(** C5, as stated, fails for the average mass: a later row whose value
    does not parse leaves the mass read from an earlier row. *)
Lemma last_match_wins_fails : ~ (forall t, last_match_wins t).
Proof.
  intros H.
  assert (E := H FMass [["Average Mass"; "268.2 g/mol"]]
                ["Average Mass"; "n/a"] [] eq_refl (List.Forall_nil _)).
  vm_compute in E. discriminate E.
Qed.

(** *** Rounding to binary64

    [float] reads a decimal as the fraction [num / den] and rounds it.
    The value is located between two neighbouring multiples of
    [2 ^ e], at the exponent [e] where it has 53 significant bits (or
    at the least exponent), and the nearer one is taken. *)

Lemma scaled_pos num den e :
  0 < num -> 0 < den ->
  0 < fst (Py.scaled num den e) /\ 0 < snd (Py.scaled num den e).
Proof.
  intros Hn Hd. unfold Py.scaled. simpl.
  assert (0 < 2 ^ Z.max 0 (- e)) by (apply Z.pow_pos_nonneg; lia).
  assert (0 < 2 ^ Z.max 0 e) by (apply Z.pow_pos_nonneg; lia).
  split; apply Z.mul_pos_pos; assumption.
Qed.

Lemma scaled_shift num den e k :
  0 <= k ->
  fst (Py.scaled num den (e - k)) * snd (Py.scaled num den e)
  = 2 ^ k * (fst (Py.scaled num den e) * snd (Py.scaled num den (e - k))).
Proof.
  intros Hk. unfold Py.scaled. cbn [fst snd].
  transitivity (num * den * 2 ^ (Z.max 0 (- (e - k)) + Z.max 0 e)).
  { rewrite Z.pow_add_r by lia. ring. }
  transitivity (num * den * 2 ^ (k + Z.max 0 (- e) + Z.max 0 (e - k))).
  { do 2 f_equal. lia. }
  rewrite !Z.pow_add_r by lia. ring.
Qed.

Lemma scaled_units num den e :
  -1074 <= e ->
  fst (Py.scaled num den e) * (den * 2 ^ (e + 1074))
  = num * 2 ^ 1074 * snd (Py.scaled num den e).
Proof.
  intros He. unfold Py.scaled. cbn [fst snd].
  transitivity (num * den * 2 ^ (Z.max 0 (- e) + (e + 1074))).
  { rewrite (Z.pow_add_r 2 (Z.max 0 (- e)) (e + 1074)) by lia. ring. }
  transitivity (num * den * 2 ^ (1074 + Z.max 0 e)).
  { do 2 f_equal. lia. }
  rewrite (Z.pow_add_r 2 1074 (Z.max 0 e)) by lia. ring.
Qed.

Lemma round_half_even_spec n d :
  0 <= n -> 0 < d ->
  exists q,
    0 <= q /\ q * d <= n < (q + 1) * d
    /\ ((Py.round_half_even n d = q
         /\ 2 * (n - q * d) <= d
         /\ (2 * (n - q * d) = d -> Z.even q = true))
        \/ (Py.round_half_even n d = q + 1
            /\ d <= 2 * (n - q * d)
            /\ (2 * (n - q * d) = d -> Z.even (q + 1) = true))).
Proof.
  intros Hn Hd. exists (n / d).
  assert (Hdiv := Z.div_mod n d ltac:(lia)).
  assert (Hmod := Z.mod_pos_bound n d Hd).
  assert (Hq : 0 <= n / d) by (apply Z.div_pos; lia).
  split; [exact Hq|]. split; [nia|].
  unfold Py.round_half_even.
  replace (n - n / d * d) with (n mod d) by lia.
  destruct (Z.ltb_spec (2 * (n mod d)) d) as [H1|H1].
  { left. split; [done|]. split; lia. }
  destruct (Z.ltb_spec d (2 * (n mod d))) as [H2|H2].
  { right. split; [done|]. split; lia. }
  destruct (Z.even (n / d)) eqn:He.
  - left. split; [done|]. split; [lia|done].
  - right. split; [done|]. split; [lia|].
    intros _. replace (n / d + 1) with (Z.succ (n / d)) by lia.
    rewrite Z.even_succ, <- Z.negb_even, He. done.
Qed.

Lemma binary_exponent_spec num den :
  0 < num -> 0 < den ->
  2 ^ 52 * snd (Py.scaled num den (Py.binary_exponent num den))
  <= fst (Py.scaled num den (Py.binary_exponent num den))
  < 2 ^ 53 * snd (Py.scaled num den (Py.binary_exponent num den)).
Proof.
  intros Hn Hd. unfold Py.binary_exponent.
  set (e0 := Z.log2 num - Z.log2 den - 52).
  destruct (Z.log2_spec num Hn) as [Hn1 Hn2].
  destruct (Z.log2_spec den Hd) as [Hd1 Hd2].
  assert (Hln := Z.log2_nonneg num). assert (Hld := Z.log2_nonneg den).
  rewrite Z.pow_succ_r in Hn2, Hd2 by done.
  assert (H0 : 2 ^ 51 * snd (Py.scaled num den e0) < fst (Py.scaled num den e0)
               /\ fst (Py.scaled num den e0) < 2 ^ 53 * snd (Py.scaled num den e0)).
  { unfold Py.scaled. simpl.
    destruct (Z.le_gt_cases 0 e0) as [He|He].
    - rewrite (Z.max_l 0 (- e0)), (Z.max_r 0 e0) by lia.
      assert (Hp : 2 ^ Z.log2 num = 2 ^ 52 * (2 ^ e0 * 2 ^ Z.log2 den)).
      { rewrite <- !Z.pow_add_r by lia. f_equal. lia. }
      assert (0 < 2 ^ e0) by (apply Z.pow_pos_nonneg; lia).
      change (2 ^ 0) with 1.
      remember (2 ^ e0) as E. remember (2 ^ Z.log2 den) as P.
      remember (2 ^ Z.log2 num) as N.
      change (2 ^ 51) with 2251799813685248.
      change (2 ^ 52) with 4503599627370496 in *.
      change (2 ^ 53) with 9007199254740992. nia.
    - rewrite (Z.max_r 0 (- e0)), (Z.max_l 0 e0) by lia.
      assert (Hp : 2 ^ Z.log2 num * 2 ^ (- e0) = 2 ^ 52 * 2 ^ Z.log2 den).
      { rewrite <- !Z.pow_add_r by lia. f_equal. lia. }
      assert (0 < 2 ^ (- e0)) by (apply Z.pow_pos_nonneg; lia).
      change (2 ^ 0) with 1.
      remember (2 ^ (- e0)) as E. remember (2 ^ Z.log2 den) as P.
      remember (2 ^ Z.log2 num) as N.
      change (2 ^ 51) with 2251799813685248.
      change (2 ^ 52) with 4503599627370496 in *.
      change (2 ^ 53) with 9007199254740992. nia. }
  destruct H0 as [Hlo Hhi].
  destruct (scaled_pos num den e0 Hn Hd) as [Hn0 Hd0].
  destruct (scaled_pos num den (e0 - 1) Hn Hd) as [Hn1' Hd1'].
  assert (Hs := scaled_shift num den e0 1 ltac:(lia)).
  destruct (Py.scaled num den e0) as [n0 d0] eqn:Hsc0.
  cbn [fst snd] in *.
  destruct (Z.ltb_spec (n0 / d0) (2 ^ 52)) as [Hlt|Hge].
  - assert (Hlt' : n0 < 2 ^ 52 * d0).
    { assert (Hdiv := Z.div_mod n0 d0 ltac:(lia)).
      assert (Hmod := Z.mod_pos_bound n0 d0 Hd0).
      change (2 ^ 52) with 4503599627370496 in *. nia. }
    destruct (Py.scaled num den (e0 - 1)) as [n1 d1]. cbn [fst snd] in *.
    change (2 ^ 1) with 2 in Hs.
    change (2 ^ 51) with 2251799813685248 in *.
    change (2 ^ 52) with 4503599627370496 in *.
    change (2 ^ 53) with 9007199254740992 in *.
    split.
    + apply (Z.mul_le_mono_pos_r _ _ d0 Hd0). nia.
    + apply (Z.mul_lt_mono_pos_r d0 _ _ Hd0). nia.
  - rewrite Hsc0. cbn [fst snd]. split; [|exact Hhi].
    assert (Hdiv := Z.mul_div_le n0 d0 Hd0).
    change (2 ^ 52) with 4503599627370496 in *. nia.
Qed.

Lemma no_binary64_between q e m' e' :
  -1074 <= e -> 0 <= q -> (2 ^ 52 <= q \/ e = -1074) ->
  binary64 m' e' ->
  units m' e' <= q * 2 ^ (e + 1074) \/ (q + 1) * 2 ^ (e + 1074) <= units m' e'.
Proof.
  intros He Hq Hnorm (Hm' & He' & _). unfold units.
  assert (HU : 0 < 2 ^ (e + 1074)) by (apply Z.pow_pos_nonneg; lia).
  destruct (Z.le_gt_cases e e') as [Hle|Hlt].
  - replace (e' + 1074) with ((e' - e) + (e + 1074)) by lia.
    rewrite Z.pow_add_r by lia.
    assert (HK : 0 < 2 ^ (e' - e)) by (apply Z.pow_pos_nonneg; lia).
    remember (2 ^ (e + 1074)) as U. remember (2 ^ (e' - e)) as K.
    destruct (Z.le_gt_cases (m' * K) q); [left|right]; nia.
  - left. destruct Hnorm as [Hq52|Hmin]; [|lia].
    assert (Hpow : 2 ^ (e' + 1074 + 1) <= 2 ^ (e + 1074))
      by (apply Z.pow_le_mono_r; lia).
    rewrite Z.pow_add_r in Hpow by lia. change (2 ^ 1) with 2 in Hpow.
    assert (HU' : 0 < 2 ^ (e' + 1074)) by (apply Z.pow_pos_nonneg; lia).
    remember (2 ^ (e + 1074)) as U. remember (2 ^ (e' + 1074)) as U'.
    change (2 ^ 52) with 4503599627370496 in *.
    change (2 ^ 53) with 9007199254740992 in *. nia.
Qed.

Lemma round_binary64_step neg num den :
  0 < num -> 0 < den ->
  exists e q m,
    -1074 <= e /\ 0 <= q < 2 ^ 53 /\ (2 ^ 52 <= q \/ e = -1074)
    /\ q * (2 ^ (e + 1074) * den) <= num * 2 ^ 1074
       < (q + 1) * (2 ^ (e + 1074) * den)
    /\ ((m = q
         /\ 2 * (num * 2 ^ 1074 - q * (2 ^ (e + 1074) * den))
            <= 2 ^ (e + 1074) * den
         /\ (2 * (num * 2 ^ 1074 - q * (2 ^ (e + 1074) * den))
             = 2 ^ (e + 1074) * den -> Z.even q = true))
        \/ (m = q + 1
            /\ 2 ^ (e + 1074) * den
               <= 2 * (num * 2 ^ 1074 - q * (2 ^ (e + 1074) * den))
            /\ (2 * (num * 2 ^ 1074 - q * (2 ^ (e + 1074) * den))
                = 2 ^ (e + 1074) * den -> Z.even (q + 1) = true)))
    /\ Py.round_binary64 neg num den
       = let '(m, e) := if m =? 2 ^ 53 then (2 ^ 52, e + 1) else (m, e) in
         if 971 <? e then Py.Inf neg else Py.Finite neg m e.
Proof.
  intros Hn Hd. unfold Py.round_binary64.
  set (e1 := Py.binary_exponent num den).
  set (e := Z.max e1 (-1074)).
  assert (He : -1074 <= e) by lia.
  destruct (scaled_pos num den e Hn Hd) as [Hn0 Hd0].
  assert (HU := scaled_units num den e He).
  assert (Hnorm : fst (Py.scaled num den e) < 2 ^ 53 * snd (Py.scaled num den e)
                  /\ (2 ^ 52 * snd (Py.scaled num den e)
                      <= fst (Py.scaled num den e)
                      \/ e = -1074)).
  { assert (B := binary_exponent_spec num den Hn Hd). fold e1 in B.
    destruct (Z.le_gt_cases (-1074) e1) as [Hle|Hgt].
    - replace e with e1 by lia. split; [lia|left; lia].
    - split; [|right; lia].
      assert (Hs := scaled_shift num den e (e - e1) ltac:(lia)).
      replace (e - (e - e1)) with e1 in Hs by lia.
      destruct (scaled_pos num den e1 Hn Hd) as [Hn1 Hd1].
      assert (HK : 2 ^ 1 <= 2 ^ (e - e1)) by (apply Z.pow_le_mono_r; lia).
      change (2 ^ 1) with 2 in HK.
      destruct (Py.scaled num den e1) as [n1 d1].
      destruct (Py.scaled num den e) as [n d]. cbn [fst snd] in *.
      remember (2 ^ (e - e1)) as K.
      change (2 ^ 52) with 4503599627370496 in *.
      change (2 ^ 53) with 9007199254740992 in *.
      apply (Z.mul_lt_mono_pos_r d1 _ _ Hd1). nia. }
  destruct (Py.scaled num den e) as [n d]. cbn [fst snd] in *.
  destruct (round_half_even_spec n d ltac:(lia) Hd0) as (q & Hq0 & Hqn & Hm).
  exists e, q, (Py.round_half_even n d).
  assert (HUpos : 0 < 2 ^ (e + 1074)) by (apply Z.pow_pos_nonneg; lia).
  remember (2 ^ (e + 1074)) as U. remember (num * 2 ^ 1074) as X.
  assert (Hr : (n - q * d) * (den * U) = d * (X - q * (U * den))).
  { rewrite Z.mul_sub_distr_r, HU. ring. }
  split; [exact He|].
  change (2 ^ 52) with 4503599627370496 in *.
  change (2 ^ 53) with 9007199254740992 in *.
  split; [nia|]. split; [destruct Hnorm as [_ [?|?]]; [left; nia|by right]|].
  split.
  { split.
    - apply (Z.mul_le_mono_pos_r _ _ d Hd0). nia.
    - apply (Z.mul_lt_mono_pos_r d _ _ Hd0). nia. }
  split; [|reflexivity].
  assert (HW : 0 < den * U) by (apply Z.mul_pos_pos; lia).
  destruct Hm as [(Hm & Hhalf & Heven)|(Hm & Hhalf & Heven)]; [left|right];
    (split; [exact Hm|]); split.
  - apply (Z.mul_le_mono_pos_r _ _ d Hd0). nia.
  - intros Htie. apply Heven.
    apply (Z.mul_cancel_r _ _ (den * U)); [lia|]. nia.
  - apply (Z.mul_le_mono_pos_r _ _ d Hd0). nia.
  - intros Htie. apply Heven.
    apply (Z.mul_cancel_r _ _ (den * U)); [lia|]. nia.
Qed.

Lemma nearest_neighbour X den U q V' :
  0 < den -> 0 < U ->
  q * (U * den) <= X < (q + 1) * (U * den) ->
  V' <= q * U \/ (q + 1) * U <= V' ->
  (2 * (X - q * (U * den)) <= U * den ->
   Z.abs (X - den * (q * U)) <= Z.abs (X - den * V')
   /\ (Z.abs (X - den * (q * U)) = Z.abs (X - den * V') ->
       V' <> q * U -> 2 * (X - q * (U * den)) = U * den))
  /\ (U * den <= 2 * (X - q * (U * den)) ->
      Z.abs (X - den * ((q + 1) * U)) <= Z.abs (X - den * V')
      /\ (Z.abs (X - den * ((q + 1) * U)) = Z.abs (X - den * V') ->
          V' <> (q + 1) * U -> 2 * (X - q * (U * den)) = U * den)).
Proof.
  intros Hden HU Hq HV.
  assert (Hlow : V' <= q * U -> den * V' <= den * (q * U))
    by (intros; apply Z.mul_le_mono_nonneg_l; lia).
  assert (Hlow' : V' < q * U -> den * V' < den * (q * U))
    by (intros; apply Z.mul_lt_mono_pos_l; lia).
  assert (Hhigh : (q + 1) * U <= V' -> den * ((q + 1) * U) <= den * V')
    by (intros; apply Z.mul_le_mono_nonneg_l; lia).
  assert (Hhigh' : (q + 1) * U < V' -> den * ((q + 1) * U) < den * V')
    by (intros; apply Z.mul_lt_mono_pos_l; lia).
  assert (E1 : den * (q * U) = q * (U * den)) by ring.
  assert (E2 : den * ((q + 1) * U) = q * (U * den) + U * den) by ring.
  remember (den * V') as DV. remember (U * den) as W.
  remember (q * W) as QW. remember (q * U) as QU.
  remember ((q + 1) * U) as QU1.
  rewrite E1, E2. replace ((q + 1) * W) with (QW + W) in Hq by (subst; ring).
  clear HeqDV HeqW HeqQW.
  split; intros Hhalf; (split; [lia|intros Htie Hne]).
  - destruct HV as [HV|HV]; [|lia].
    assert (V' < QU) by lia. lia.
  - destruct HV as [HV|HV]; [lia|].
    assert (QU1 < V') by lia. lia.
Qed.

(** [Py.round_binary64] rounds as IEEE 754 asks of a conversion. *)
Theorem round_binary64_correct neg num den :
  0 < num -> 0 < den ->
  correctly_rounded num den (Py.round_binary64 neg num den).
Proof.
  intros Hn Hd.
  destruct (round_binary64_step neg num den Hn Hd)
    as (e & q & m & He & Hq & Hnorm & Hqx & Hm & ->).
  assert (HU : 0 < 2 ^ (e + 1074)) by (apply Z.pow_pos_nonneg; lia).
  assert (Hbetween := fun m' e' => no_binary64_between q e m' e' He (proj1 Hq) Hnorm).
  assert (Hnear := fun V' => nearest_neighbour (num * 2 ^ 1074) den
                                (2 ^ (e + 1074)) q V' Hd HU Hqx).
  assert (Hover : 971 < e -> (2 ^ 1024 - 2 ^ 970) * den <= num).
  { intros Hbig. destruct Hnorm as [Hq52|]; [|lia].
    assert (Hpow : 2 ^ (972 + 1074) <= 2 ^ (e + 1074))
      by (apply Z.pow_le_mono_r; lia).
    assert (E : 2 ^ (972 + 1074) = 4 * (2 ^ 970 * 2 ^ 1074))
      by (rewrite <- Z.pow_add_r by lia; reflexivity).
    assert (E' : 2 ^ 1024 = 18014398509481984 * 2 ^ 970) by reflexivity.
    assert (HT : 0 < 2 ^ 1074) by (apply Z.pow_pos_nonneg; lia).
    assert (HP : 0 < 2 ^ 970) by (apply Z.pow_pos_nonneg; lia).
    rewrite E in Hpow. rewrite E'.
    remember (2 ^ (e + 1074)) as U. remember (2 ^ 1074) as T.
    remember (2 ^ 970) as P.
    change (2 ^ 52) with 4503599627370496 in *.
    apply (Z.mul_le_mono_pos_r _ _ T HT). nia. }
  change (2 ^ 52) with 4503599627370496 in *.
  change (2 ^ 53) with 9007199254740992 in *.
  destruct (Z.eqb_spec m 9007199254740992) as [Hcarry|Hnocarry].
  - destruct Hm as [(Hm & _)|(Hm & Hhalf & Heven)]; [lia|].
    destruct (Z.ltb_spec 971 (e + 1)) as [Hbig|Hfit];
      cbn [correctly_rounded].
    + destruct (Z.le_gt_cases e 971) as [He971|]; [|auto].
      assert (e = 971) by lia. subst e.
      assert (E : 2 ^ (971 + 1074) = 2 * (2 ^ 970 * 2 ^ 1074))
        by (rewrite <- Z.pow_add_r by lia; reflexivity).
      assert (E' : 2 ^ 1024 = 18014398509481984 * 2 ^ 970) by reflexivity.
      assert (HT : 0 < 2 ^ 1074) by (apply Z.pow_pos_nonneg; lia).
      assert (HP : 0 < 2 ^ 970) by (apply Z.pow_pos_nonneg; lia).
      rewrite E in Hhalf. rewrite E'.
      remember (2 ^ 1074) as T. remember (2 ^ 970) as P.
      apply (Z.mul_le_mono_pos_r _ _ T HT). nia.
    + assert (EV : units 4503599627370496 (e + 1) = (q + 1) * 2 ^ (e + 1074)).
      { unfold units. replace (e + 1 + 1074) with (1 + (e + 1074)) by lia.
        rewrite Z.pow_add_r by lia. change (2 ^ 1) with 2. lia. }
      split.
      { unfold binary64. change (2 ^ 52) with 4503599627370496.
        change (2 ^ 53) with 9007199254740992. lia. }
      intros m' e' Hb. unfold distance. rewrite EV.
      destruct (Hnear (units m' e') (Hbetween m' e' Hb)) as [_ Hup].
      destruct (Hup Hhalf) as [Hle Htie]. split; [exact Hle|].
      intros _ _. reflexivity.
  - destruct (Z.ltb_spec 971 e) as [Hbig|Hfit]; cbn [correctly_rounded].
    + auto.
    + split.
      { unfold binary64. change (2 ^ 52) with 4503599627370496.
        change (2 ^ 53) with 9007199254740992.
        destruct Hm as [(Hm & _)|(Hm & _)]; lia. }
      intros m' e' Hb. unfold distance.
      destruct (Hnear (units m' e') (Hbetween m' e' Hb)) as [Hdown Hup].
      destruct Hm as [(Hm & Hhalf & Heven)|(Hm & Hhalf & Heven)];
        subst m; unfold units at 1 3 5.
      * destruct (Hdown Hhalf) as [Hle Htie]. split; [exact Hle|].
        intros Heq Hne. apply Heven, Htie; [exact Heq|exact Hne].
      * destruct (Hup Hhalf) as [Hle Htie]. split; [exact Hle|].
        intros Heq Hne. apply Heven, Htie; [exact Heq|exact Hne].
Qed.

(** *** The average mass *)

Lemma parse_mass_truncates value : parse_mass value = truncated_mass value.
Proof.
  unfold parse_mass, truncated_mass.
  destruct (Py.split_ws value) as [|tok ?]; [done|]. simpl.
  destruct (Py.float tok) as [[neg m e| |]|]; done.
Qed.

(** C6, as the code has it.  A row with a value whose label contains
    [average mass] and neither [smiles] nor [systematic name] sets the
    mass to the first whitespace-delimited token of the value, read as a
    float, truncated toward zero and printed as an integer; the other
    fields stay.  When the token is missing or is not a finite float the
    row changes nothing: the mass keeps the value it had.  The value
    [268.2 g/mol] gives [268]. *)
Theorem mass_row f cells :
  labelled "average mass" cells = true ->
  labelled "smiles" cells = false ->
  labelled "systematic name" cells = false ->
  scan_row f cells
  = match truncated_mass (row_value cells) with
    | Some m => Fields (smiles f) (systematic_name f) m
    | None => f
    end
  /\ truncated_mass "268.2 g/mol" = Some "268".
Proof.
  intros Hmass Hsmiles Hname. split; [|by vm_compute].
  rewrite <- parse_mass_truncates.
  unfold labelled, row_value in *.
  destruct cells as [|c0 [|c1 cells]]; [done..|]. simpl.
  by rewrite Hsmiles, Hname, Hmass.
Qed.

(** C6, as stated, fails after a row that set the mass: a value that
    does not parse leaves that mass, not an empty field. *)
Lemma mass_row_decides_fails : ~ mass_row_decides.
Proof.
  intros H.
  assert (E := H [["Average Mass"; "268.2 g/mol"]]
                 ["Average mass (calc.)"; "unknown"] eq_refl).
  vm_compute in E. discriminate E.
Qed.

(** ** get_listing_pages *)

Lemma traced_traced st evs evs' :
  traced (traced st evs) evs' = traced st (evs ++ evs').
Proof. unfold traced, set_trace. simpl. by rewrite app_assoc. Qed.

Lemma traced_nil st : traced st [] = st.
Proof. unfold traced, set_trace. rewrite app_nil_r. by destruct st. Qed.

Lemma listing_loop_turn fuel pre u st :
  listing_loop (S fuel) (pre ++ [u]) st =
  match listing_step (web st) u with
  | Stop => (Ok (Some (pre ++ [u])%list), traced st [Get u])
  | Next u' => listing_loop fuel ((pre ++ [u]) ++ [u']) (traced st [Get u])
  | Error e => (Raise e, traced st [Get u])
  end.
Proof.
  cbn [listing_loop]. rewrite last_snoc. unfold listing_step.
  destruct (web st u) as [e|soup] eqn:Hweb.
  - by erewrite bind_raise by by apply requests_get_fails.
  - erewrite bind_ok by by apply requests_get_serves.
    destruct (find_next_link soup) as [a|]; [|done].
    by destruct (a_href a).
Qed.

Lemma listing_loop_chain w u urls :
  listing_chain w u urls ->
  forall fuel pre st,
    web st = w -> (length urls <= fuel)%nat ->
    listing_loop fuel (pre ++ [u]) st
    = (Ok (Some (pre ++ urls)%list), traced st (Get <$> urls)).
Proof.
  induction 1 as [u Hstep|u u' urls Hstep _ IH]; intros fuel pre st <- Hfuel.
  - destruct fuel as [|fuel]; [simpl in Hfuel; lia|].
    by rewrite listing_loop_turn, Hstep.
  - destruct fuel as [|fuel]; [simpl in Hfuel; lia|].
    rewrite listing_loop_turn, Hstep.
    rewrite IH by (done || simpl in Hfuel; lia).
    by rewrite traced_traced, <- app_assoc.
Qed.

Lemma listing_loop_error w u urls e :
  listing_error w u urls e ->
  forall fuel pre st,
    web st = w -> (length urls <= fuel)%nat ->
    listing_loop fuel (pre ++ [u]) st
    = (Raise e, traced st (Get <$> urls)).
Proof.
  induction 1 as [u e Hstep|u u' urls e Hstep _ IH]; intros fuel pre st <- Hfuel.
  - destruct fuel as [|fuel]; [simpl in Hfuel; lia|].
    by rewrite listing_loop_turn, Hstep.
  - destruct fuel as [|fuel]; [simpl in Hfuel; lia|].
    rewrite listing_loop_turn, Hstep.
    rewrite IH by (done || simpl in Hfuel; lia).
    by rewrite traced_traced.
Qed.

Lemma listing_loop_returns fuel :
  forall pre u st urls st',
    listing_loop fuel (pre ++ [u]) st = (Ok (Some urls), st') ->
    exists visited,
      urls = (pre ++ visited)%list /\ listing_chain (web st) u visited.
Proof.
  induction fuel as [|fuel IH]; intros pre u st urls st' Hrun; [done|].
  rewrite listing_loop_turn in Hrun.
  destruct (listing_step (web st) u) as [|u'|e] eqn:Hstep.
  - injection Hrun as <- _. exists [u]. split; [done|]. by constructor.
  - apply IH in Hrun as (visited & -> & Hchain).
    exists (u :: visited). split; [by rewrite <- app_assoc|].
    by econstructor.
  - done.
Qed.

Lemma listing_chain_head w u urls :
  listing_chain w u urls -> head urls = Some u.
Proof. by destruct 1. Qed.

Lemma main_aborts fuel st e st' :
  get_listing_pages fuel st = (Raise e, st') -> main fuel st = (Raise e, st').
Proof. intros H. unfold main. by erewrite bind_raise. Qed.

(** C8, as the code has it.  When following the next links from the
    seed reaches a page without one, [get_listing_pages] returns the pages
    visited, the seed first; with the seed alone when the seed has no next
    link.  Whatever it returns is such a sequence.  When a page on the way
    raises (a request that fails, a next link without [href]) the
    exception leaves [get_listing_pages] and [main], after the requests
    made so far and nothing else. *)
Theorem get_listing_pages_follows_links st :
  (forall urls fuel,
     listing_chain (web st) LISTING_URL urls -> (length urls <= fuel)%nat ->
     get_listing_pages fuel st = (Ok (Some urls), traced st (Get <$> urls)))
  /\ (forall fuel urls st',
        get_listing_pages fuel st = (Ok (Some urls), st') ->
        urls <> [] /\ head urls = Some LISTING_URL
        /\ listing_chain (web st) LISTING_URL urls)
  /\ (forall fuel,
        listing_step (web st) LISTING_URL = Stop ->
        get_listing_pages (S fuel) st
        = (Ok (Some [LISTING_URL]), traced st [Get LISTING_URL]))
  /\ (forall urls e fuel,
        listing_error (web st) LISTING_URL urls e -> (length urls <= fuel)%nat ->
        get_listing_pages fuel st = (Raise e, traced st (Get <$> urls))
        /\ main fuel st = (Raise e, traced st (Get <$> urls))).
Proof.
  assert (Hret : forall fuel urls st',
            get_listing_pages fuel st = (Ok (Some urls), st') ->
            listing_chain (web st) LISTING_URL urls).
  { intros fuel urls st' Hrun.
    apply (listing_loop_returns fuel []) in Hrun as (visited & -> & Hchain).
    done. }
  split; [|split; [|split]].
  - intros urls fuel Hchain Hfuel.
    apply (listing_loop_chain _ _ _ Hchain fuel [] st eq_refl Hfuel).
  - intros fuel urls st' Hrun. apply Hret in Hrun.
    apply listing_chain_head in Hrun as Hhead.
    split; [by destruct urls|]. done.
  - intros fuel Hstep.
    assert (Hturn := listing_loop_turn fuel [] LISTING_URL st).
    by rewrite Hstep in Hturn.
  - intros urls e fuel Herr Hfuel.
    assert (Hrun := listing_loop_error _ _ _ _ Herr fuel [] st eq_refl Hfuel).
    split; [done|]. by apply main_aborts.
Qed.

Lemma looping_never_ends fuel :
  forall pre u st,
    web st = looping_web -> fst (listing_loop fuel (pre ++ [u]) st) = Ok None.
Proof.
  induction fuel as [|fuel IH]; intros pre u st Hweb; [done|].
  rewrite listing_loop_turn, Hweb. simpl. by apply IH.
Qed.

(** C8, as stated, fails in a web whose listing pages always link on:
    the paginator neither returns nor raises. *)
Lemma paginator_may_loop : ~ paginator_always_ends.
Proof.
  intros H. destruct (H looping_state) as [fuel Hfuel]. apply Hfuel.
  by apply (looping_never_ends fuel []).
Qed.

(** ** Printing and reading integers *)

Lemma all_chars_app p s t :
  all_chars p (s ++ t) = all_chars p s && all_chars p t.
Proof. induction s as [|c s IH]; simpl; [done|]. by rewrite IH, andb_assoc. Qed.

Lemma string_length_app s t :
  String.length (s ++ t) = (String.length s + String.length t)%nat.
Proof. induction s as [|c s IH]; simpl; [done|]. by rewrite IH. Qed.

Lemma string_app_nil_r s : s ++ "" = s.
Proof.
  induction s as [|c s IH]; cbv [String.append]; fold String.append; [done|].
  by rewrite IH.
Qed.

Lemma string_app_assoc s t u : (s ++ t) ++ u = s ++ (t ++ u).
Proof.
  induction s as [|c s IH]; cbv [String.append]; fold String.append; [done|].
  by rewrite IH.
Qed.

Lemma all_chars_impl (p q : ascii -> bool) s :
  (forall c, p c = true -> q c = true) ->
  all_chars p s = true -> all_chars q s = true.
Proof.
  intros Hpq. induction s as [|c s IH]; simpl; [done|].
  rewrite !andb_true_iff. intros [? ?]. auto.
Qed.

Lemma uint_digits d :
  all_chars Py.isdigit (NilEmpty.string_of_uint d) = true.
Proof. induction d; simpl; by rewrite ?IHd. Qed.

Lemma digits_value_uint d acc :
  Py.digits_value acc (NilEmpty.string_of_uint d) = Some (uint_value acc d).
Proof. revert acc. induction d; intros acc; simpl; by rewrite ?IHd. Qed.

Lemma uint_value_acc d p :
  uint_value (Z.pos p) d = Z.pos (Pos.of_uint_acc d p).
Proof.
  revert p. induction d; intros p; simpl; [done|..];
    rewrite <- IHd; f_equal; lia.
Qed.

Lemma uint_value_of_uint d : uint_value 0 d = Z.of_uint d.
Proof.
  unfold Z.of_uint. induction d; simpl; [done|done|..];
    by rewrite <- uint_value_acc.
Qed.

(** The text of an integer: an optional minus sign and its digits. *)
Lemma str_shape n :
  exists ds,
    Py.str n = (if n <? 0 then "-" else "") ++ ds
    /\ ds <> ""
    /\ all_chars Py.isdigit ds = true
    /\ Py.digits ds = Some (Z.abs n).
Proof.
  assert (Hpos : forall p,
    let ds := NilEmpty.string_of_uint (Pos.to_uint p) in
    NilZero.string_of_uint (Pos.to_uint p) = ds
    /\ ds <> "" /\ all_chars Py.isdigit ds = true
    /\ Py.digits ds = Some (Z.pos p)).
  { intros p ds. subst ds.
    assert (Hv : Z.of_uint (Pos.to_uint p) = Z.pos p).
    { unfold Z.of_uint. by rewrite DecimalPos.Unsigned.of_to. }
    destruct (Pos.to_uint p) as [|d|d|d|d|d|d|d|d|d|d] eqn:Hd; [done|..];
      (split; [done|]; split; [done|]; split; [apply (uint_digits (_ d))|]);
      rewrite <- Hv, <- uint_value_of_uint; apply (digits_value_uint (_ d)). }
  destruct n as [|p|p]; unfold Py.str; simpl.
  - exists "0". by repeat split.
  - destruct (Hpos p) as (-> & ? & ? & ?). by eexists.
  - destruct (Hpos p) as (-> & ? & ? & ?). by eexists.
Qed.

Lemma str_numeric n : all_chars numeric_char (Py.str n) = true.
Proof.
  destruct (str_shape n) as (ds & -> & _ & Hds & _).
  rewrite all_chars_app. apply andb_true_iff. split.
  - by destruct (n <? 0).
  - revert Hds. apply all_chars_impl. intros c Hc. unfold numeric_char.
    by rewrite Hc.
Qed.

Lemma str_nonempty n : (1 <= String.length (Py.str n))%nat.
Proof.
  destruct (str_shape n) as (ds & -> & Hne & _).
  rewrite string_length_app. destruct ds; [done|]. simpl. lia.
Qed.

Lemma lstrip_id s :
  all_chars (fun c => negb (Py.isspace c)) s = true -> Py.lstrip s = s.
Proof.
  destruct s as [|c s]; simpl; [done|].
  rewrite andb_true_iff, negb_true_iff. by intros [-> _].
Qed.

Lemma rstrip_id s :
  all_chars (fun c => negb (Py.isspace c)) s = true -> Py.rstrip s = s.
Proof.
  induction s as [|c s IH]; simpl; [done|].
  rewrite andb_true_iff, negb_true_iff. intros [Hc Hs].
  rewrite IH, Hc by done. by destruct s.
Qed.

Lemma strip_id s :
  all_chars (fun c => negb (Py.isspace c)) s = true -> Py.strip s = s.
Proof. intros H. unfold Py.strip. by rewrite lstrip_id, rstrip_id. Qed.

Lemma drop_underscores_id s prev :
  all_chars (fun c => negb (Ascii.eqb c "_")) s = true ->
  prev <> Some "_"%char ->
  Py.drop_underscores prev s = Some s.
Proof.
  revert prev. induction s as [|c s IH]; intros prev; simpl.
  - intros _ Hprev. destruct prev as [p|]; [|done].
    destruct (Ascii.eqb_spec p "_"); [congruence|].
    destruct p as [[] [] [] [] [] [] [] []]; done.
  - rewrite andb_true_iff, negb_true_iff. intros [Hc Hs] Hprev.
    rewrite Hc.
    assert (Hrec : Py.drop_underscores (Some c) s = Some s).
    { apply IH; [done|]. intros [= ->]. done. }
    destruct prev as [p|]; [|by rewrite Hrec].
    destruct (Ascii.eqb_spec p "_"); [congruence|].
    destruct p as [[] [] [] [] [] [] [] []]; try done; by rewrite Hrec.
Qed.

Lemma numeric_char_plain c :
  numeric_char c = true ->
  Py.isspace c = false /\ Ascii.eqb c "_" = false /\ Ascii.eqb c "/" = false
  /\ Ascii.eqb c "." = false.
Proof. destruct c as [[] [] [] [] [] [] [] []]; by vm_compute. Qed.

Lemma take_sign_digits ds :
  ds <> "" -> all_chars Py.isdigit ds = true ->
  Py.take_sign ds = (false, ds).
Proof.
  destruct ds as [|c ds]; [done|]. simpl. intros _.
  rewrite andb_true_iff. intros [Hc _].
  destruct c as [[] [] [] [] [] [] [] []]; done.
Qed.

(** [int(str(n)) == n] *)
Lemma int_str n : Py.int (Py.str n) = Some n.
Proof.
  unfold Py.int.
  assert (Hplain := str_numeric n).
  rewrite strip_id; last first.
  { revert Hplain. apply all_chars_impl. intros c Hc.
    by apply numeric_char_plain in Hc as (-> & _). }
  rewrite drop_underscores_id; [|  |done]; last first.
  { revert Hplain. apply all_chars_impl. intros c Hc.
    by apply numeric_char_plain in Hc as (_ & -> & _). }
  simpl. destruct (str_shape n) as (ds & -> & Hne & Hds & Hval).
  destruct (n <? 0) eqn:Hneg; cbv [String.append].
  - simpl. rewrite Hval. simpl. f_equal. apply Z.ltb_lt in Hneg. lia.
  - rewrite take_sign_digits by done. rewrite Hval. simpl. f_equal.
    apply Z.ltb_ge in Hneg. lia.
Qed.

(** ** Checkpoint names *)

Lemma split_on_nonempty sep s : Py.split_on sep s <> [].
Proof.
  destruct s as [|c s]; simpl; [done|].
  destruct (Ascii.eqb c sep); [done|]. by destruct (Py.split_on sep s).
Qed.

(** Text without the separator stays in the first piece. *)
Lemma split_on_app sep s t :
  all_chars (fun c => negb (Ascii.eqb c sep)) s = true ->
  Py.split_on sep (s ++ t)
  = match Py.split_on sep t with
    | [] => [s]
    | p :: ps => (s ++ p) :: ps
    end.
Proof.
  induction s as [|c s IH]; cbv [String.append]; fold String.append.
  - intros _. pose proof (split_on_nonempty sep t).
    by destruct (Py.split_on sep t).
  - simpl. rewrite andb_true_iff, negb_true_iff. intros [-> Hs].
    rewrite IH by done. pose proof (split_on_nonempty sep t).
    destruct (Py.split_on sep t); [done|].
    by cbv [String.append]; fold String.append.
Qed.

Lemma split_on_plain sep s :
  all_chars (fun c => negb (Ascii.eqb c sep)) s = true ->
  Py.split_on sep s = [s].
Proof.
  intros H. rewrite <- (string_app_nil_r s) at 1.
  rewrite split_on_app by done. simpl. by rewrite string_app_nil_r.
Qed.

Lemma contains_char_plain sep s :
  all_chars (fun c => negb (Ascii.eqb c sep)) s = true ->
  Py.contains s (String sep "") = false.
Proof.
  induction s as [|c s IH]; simpl; [done|].
  rewrite andb_true_iff, negb_true_iff. intros [Hc Hs].
  rewrite IH by done. rewrite orb_false_r.
  destruct (ascii_dec sep c) as [->|]; [|done].
  by rewrite Ascii.eqb_refl in Hc.
Qed.

Lemma substring_all s : String.substring 0 (String.length s) s = s.
Proof. induction s as [|c s IH]; simpl; [done|]. by rewrite IH. Qed.

Lemma substring_skip s t :
  String.substring (String.length s) (String.length t) (s ++ t) = t.
Proof.
  induction s as [|c s IH]; cbv [String.append]; fold String.append; simpl.
  - apply substring_all.
  - done.
Qed.

Lemma str_plain sep n :
  numeric_char sep = false ->
  all_chars (fun c => negb (Ascii.eqb c sep)) (Py.str n) = true.
Proof.
  intros Hsep. generalize (str_numeric n). apply all_chars_impl.
  intros c Hc. apply negb_true_iff. destruct (Ascii.eqb_spec c sep); [|done].
  congruence.
Qed.

Lemma basename_checkpoint n : basename (checkpoint_path n) = checkpoint_name n.
Proof.
  unfold basename, checkpoint_path, path_join, checkpoint_dir.
  rewrite split_on_app by done.
  cbv [String.append]; fold String.append. cbn [Py.split_on Ascii.eqb Bool.eqb].
  rewrite split_on_plain; [done|].
  unfold checkpoint_name. rewrite !all_chars_app, str_plain by done. done.
Qed.

Lemma batch_num_of_checkpoint n : batch_num_of (checkpoint_path n) = Some n.
Proof.
  unfold batch_num_of. rewrite basename_checkpoint. unfold checkpoint_name.
  change ("checkpoint_" ++ Py.str n ++ ".csv")
    with ("checkpoint" ++ "_" ++ Py.str n ++ ".csv").
  rewrite (split_on_app "_" "checkpoint") by done.
  cbv [String.append]; fold String.append. cbn [Py.split_on Ascii.eqb Bool.eqb].
  rewrite split_on_plain; last first.
  { rewrite all_chars_app, str_plain by done. done. }
  simpl. rewrite split_on_app by by apply str_plain.
  simpl. rewrite string_app_nil_r. apply int_str.
Qed.

Lemma checkpoint_path_inj n m : checkpoint_path n = checkpoint_path m -> n = m.
Proof.
  intros H. apply (f_equal batch_num_of) in H.
  rewrite !batch_num_of_checkpoint in H. by injection H.
Qed.

Lemma substring_drop s t :
  String.substring (String.length s)
                   (String.length (s ++ t) - String.length s) (s ++ t) = t.
Proof.
  rewrite string_length_app.
  replace (String.length s + String.length t - String.length s)%nat
    with (String.length t) by lia.
  apply substring_skip.
Qed.

Lemma substring_suffix s t :
  String.substring (String.length (s ++ t) - String.length t)
                   (String.length t) (s ++ t) = t.
Proof.
  rewrite string_length_app.
  replace (String.length s + String.length t - String.length t)%nat
    with (String.length s) by lia.
  apply substring_skip.
Qed.

Lemma prefix_app s t : String.prefix s (s ++ t) = true.
Proof.
  induction s as [|c s IH]; cbv [String.append]; fold String.append.
  - by destruct t.
  - simpl. by destruct (ascii_dec c c).
Qed.

Lemma glob_match_checkpoint n : glob_match (checkpoint_path n) = true.
Proof.
  unfold glob_match, checkpoint_path, path_join, checkpoint_dir.
  set (name := checkpoint_name n).
  change ("checkpoints" ++ "/" ++ name) with (("checkpoints" ++ "/") ++ name).
  rewrite substring_drop.
  assert (Hlen : (16 <= String.length name)%nat).
  { unfold name, checkpoint_name. rewrite !string_length_app.
    pose proof (str_nonempty n). simpl. lia. }
  assert (Hends : endswith name ".csv" = true).
  { unfold endswith. apply andb_true_iff. split.
    { apply Nat.leb_le. simpl. lia. }
    apply String.eqb_eq. unfold name, checkpoint_name.
    rewrite <- !(string_app_assoc "checkpoint_" (Py.str n) ".csv").
    apply substring_suffix. }
  rewrite Hends, prefix_app.
  replace (String.prefix "checkpoint_" name) with true
    by (symmetry; apply prefix_app).
  rewrite contains_char_plain; last first.
  { unfold name, checkpoint_name.
    rewrite !all_chars_app, str_plain by done. done. }
  clearbody name. cbn [andb negb]. apply Nat.leb_le. lia.
Qed.

(** ** load_completed_batches *)

Lemma elem_of_add_completed acc l n :
  n ∈ foldl add_completed acc l <->
  n ∈ acc \/ exists f, f ∈ l /\ batch_num_of f = Some n.
Proof.
  revert acc. induction l as [|f l IH]; intros acc; simpl.
  - split; [by left|]. intros [?|(f & Hf & _)]; [done|]. by apply elem_of_nil in Hf.
  - rewrite IH. unfold add_completed. split.
    + intros [Hacc|(g & Hg & Hn)].
      * destruct (batch_num_of f) as [m|] eqn:Hf; [|by left].
        apply elem_of_union in Hacc as [?|Hm]; [by left|].
        apply elem_of_singleton in Hm as ->. right. exists f.
        split; [left|done].
      * right. exists g. split; [by right|done].
    + intros [Hacc|(g & Hg & Hn)].
      * left. destruct (batch_num_of f); [|done].
        apply elem_of_union. by left.
      * apply elem_of_cons in Hg as [->|Hg].
        -- left. rewrite Hn. apply elem_of_union. right.
           by apply elem_of_singleton.
        -- right. by exists g.
Qed.

Lemma elem_of_glob_checkpoints fs f :
  f ∈ glob_checkpoints fs <-> is_Some (fs !! f) /\ glob_match f = true.
Proof.
  unfold glob_checkpoints. rewrite merge_sort_Permutation.
  rewrite list_elem_of_In, filter_In, <- list_elem_of_In.
  rewrite list_elem_of_fmap. split.
  - intros [([g v] & -> & Hg) Hm]. split; [|done].
    apply elem_of_map_to_list in Hg. by exists v.
  - intros [[v Hv] Hm]. split; [|done]. exists (f, v). split; [done|].
    by apply elem_of_map_to_list.
Qed.

(** The batches found complete are those named by a file that the
    pattern matches. *)
Lemma elem_of_completed_of fs n :
  n ∈ completed_of fs <->
  exists f, is_Some (fs !! f) /\ glob_match f = true /\ batch_num_of f = Some n.
Proof.
  unfold completed_of. rewrite elem_of_add_completed. split.
  - intros [H|(f & Hf & Hn)]; [by apply elem_of_empty in H|].
    apply elem_of_glob_checkpoints in Hf as [? ?]. by exists f.
  - intros (f & Hf & Hm & Hn). right. exists f. split; [|done].
    by apply elem_of_glob_checkpoints.
Qed.

Lemma checkpoint_present_completed fs n :
  is_Some (fs !! checkpoint_path n) -> n ∈ completed_of fs.
Proof.
  intros H. apply elem_of_completed_of. exists (checkpoint_path n).
  split; [done|]. split; [apply glob_match_checkpoint|apply batch_num_of_checkpoint].
Qed.

(** ** Files *)

Lemma to_csv_run df path st :
  Pd.to_csv df path st =
  (Ok tt,
   State (web st) (schedule st) (float_repr st)
         (<[path := Pd.render (float_repr st) df]> (files st))
         (skipped_entries st) (trace st ++ [ToCsv path])).
Proof. done. Qed.

Lemma read_csv_run path st :
  Pd.read_csv path st =
  (match files st !! path with
   | None => Raise (FileNotFoundError path)
   | Some text =>
       match header text with
       | [] => Raise (EmptyDataError path)
       | _ => Ok (Pd.parse text)
       end
   end, traced st [ReadCsv path]).
Proof.
  unfold Pd.read_csv, mbind, M_bind, emit, get_state. simpl.
  destruct (files st !! path) as [text|]; [|done].
  by destruct (header text).
Qed.

Lemma save_checkpoint_run n data st :
  save_checkpoint n data st =
  (Ok tt,
   match data with
   | [] => st
   | _ => State (web st) (schedule st) (float_repr st)
            (<[checkpoint_path n := Pd.render (float_repr st) (Pd.DataFrame data)]>
               (files st))
            (skipped_entries st) (trace st ++ [ToCsv (checkpoint_path n)])
   end).
Proof. by destruct data. Qed.

(** ** One turn of the batch loop *)

Lemma process_batch_completed all_ids completed all_data i st :
  batch_num i ∈ completed ->
  process_batch all_ids completed all_data i st =
  (match files st !! checkpoint_path (batch_num i) with
   | None => Raise (FileNotFoundError (checkpoint_path (batch_num i)))
   | Some text =>
       match header text with
       | [] => Raise (EmptyDataError (checkpoint_path (batch_num i)))
       | _ => Ok (all_data ++ reloaded text)%list
       end
   end, traced st [ReadCsv (checkpoint_path (batch_num i))]).
Proof.
  intros Hin. unfold process_batch. rewrite decide_True by done.
  unfold mbind, M_bind. rewrite read_csv_run.
  destruct (files st !! _) as [text|]; [|done]. by destruct (header text).
Qed.

Lemma process_batch_fresh all_ids completed all_data i st :
  batch_num i ∉ completed ->
  let order := pool_order st (batch_ids all_ids i) in
  let batch_data := omap (served_record (web st)) order in
  let st1 := State (web st) (schedule st) (float_repr st) (files st)
               (skipped_entries st ++ List.filter (skips (web st)) order)
               (trace st ++ (Get ∘ entry_url <$> order)) in
  process_batch all_ids completed all_data i st =
  (Ok (all_data ++ batch_data)%list, snd (save_checkpoint (batch_num i) batch_data st1)).
Proof.
  intros Hin order batch_data st1. unfold process_batch.
  rewrite decide_False by done.
  erewrite bind_ok by apply run_pool_run.
  fold order batch_data st1. unfold mbind, M_bind.
  by rewrite save_checkpoint_run.
Qed.

(** What a turn may change: nothing of the web, no file but the
    checkpoint of its batch, and it traces only requests, the read of a
    checkpoint and the write of its own. *)
Lemma process_batch_effects all_ids completed all_data i st :
  let out := process_batch all_ids completed all_data i st in
  web (snd out) = web st
  /\ schedule (snd out) = schedule st
  /\ float_repr (snd out) = float_repr st
  /\ (forall path, path <> checkpoint_path (batch_num i) ->
        files (snd out) !! path = files st !! path)
  /\ (exists evs, trace (snd out) = (trace st ++ evs)%list
                  /\ Forall (batch_event (batch_num i)) evs)
  /\ (exists new, skipped_entries (snd out) = (skipped_entries st ++ new)%list).
Proof.
  intros out. subst out.
  destruct (decide (batch_num i ∈ completed)) as [Hin|Hin].
  - rewrite process_batch_completed by done. simpl.
    repeat split; try done.
    + exists [ReadCsv (checkpoint_path (batch_num i))]. split; [done|].
      by repeat constructor.
    + exists []. by rewrite app_nil_r.
  - rewrite process_batch_fresh by done. rewrite save_checkpoint_run.
    set (order := pool_order st (batch_ids all_ids i)).
    assert (Hgets : Forall (batch_event (batch_num i)) (Get ∘ entry_url <$> order)).
    { apply Forall_fmap, Forall_true. by intros fid. }
    destruct (omap (served_record (web st)) order) as [|r rs]; simpl.
    + repeat split; try done; by eexists.
    + repeat split; try done.
      * intros path Hpath. by rewrite lookup_insert_ne.
      * eexists. rewrite <- app_assoc. split; [done|].
        apply Forall_app. split; [done|]. by repeat constructor.
      * by eexists.
Qed.

(** ** Loops *)

Lemma for_each_app {A B} (xs ys : list A) (body : B -> A -> M B) acc st :
  for_each (xs ++ ys) body acc st =
  match for_each xs body acc st with
  | (Ok acc', st') => for_each ys body acc' st'
  | (Raise e, st') => (Raise e, st')
  end.
Proof.
  revert acc st. induction xs as [|x xs IH]; intros acc st; [done|].
  simpl. unfold mbind, M_bind.
  destruct (body acc x st) as [[acc'|e] st']; [apply IH|done].
Qed.

Lemma batch_turns_effects all_ids completed turns :
  forall all_data st,
    let out := for_each turns (process_batch all_ids completed) all_data st in
    web (snd out) = web st
    /\ schedule (snd out) = schedule st
    /\ float_repr (snd out) = float_repr st
    /\ (forall path,
          Forall (fun i => path <> checkpoint_path (batch_num i)) turns ->
          files (snd out) !! path = files st !! path)
    /\ (exists evs, trace (snd out) = (trace st ++ evs)%list
                    /\ Forall (fun ev => exists n, batch_event n ev) evs)
    /\ (exists new, skipped_entries (snd out) = (skipped_entries st ++ new)%list).
Proof.
  induction turns as [|i turns IH]; intros all_data st out; subst out.
  - simpl. repeat split; try done; exists []; by rewrite app_nil_r.
  - cbn [for_each]. unfold mbind, M_bind.
    destruct (process_batch_effects all_ids completed all_data i st)
      as (Hweb & Hsched & Hrepr & Hfiles & (evs & Htrace & Hevs) & (new & Hskip)).
    assert (Hevs' : Forall (fun ev => exists n, batch_event n ev) evs).
    { eapply Forall_impl; [exact Hevs|]. intros ev ?. by eexists. }
    destruct (process_batch all_ids completed all_data i st) as [[acc'|e] st'];
      simpl in *.
    + destruct (IH acc' st')
        as (Hweb2 & Hsched2 & Hrepr2 & Hfiles2 & (evs2 & Htrace2 & Hevs2) & (new2 & Hskip2)).
      repeat split; try congruence.
      * intros path Hpath. apply Forall_cons in Hpath as [Hi Hrest].
        rewrite Hfiles2 by done. by apply Hfiles.
      * exists (evs ++ evs2)%list. rewrite Htrace2, Htrace, app_assoc.
        split; [done|]. by apply Forall_app.
      * exists (new ++ new2)%list. by rewrite Hskip2, Hskip, app_assoc.
    + repeat split; try done.
      * intros path Hpath. apply Forall_cons in Hpath as [Hi Hrest].
        by apply Hfiles.
      * by exists evs.
      * by exists new.
Qed.

(** ** range *)

Lemma range_from_multiples fuel a stop step :
  exists m, range_from fuel (a * step) stop step
            = (fun k => (k * step)%nat) <$> seq a m.
Proof.
  revert a. induction fuel as [|fuel IH]; intros a; simpl.
  - by exists 0%nat.
  - destruct (a * step <? stop)%nat; [|by exists 0%nat].
    destruct (IH (S a)) as [m Hm]. exists (S m).
    replace (a * step + step)%nat with (S a * step)%nat by lia.
    by rewrite Hm.
Qed.

Lemma range_multiples stop step :
  exists m, range stop step = (fun k => (k * step)%nat) <$> seq 0 m.
Proof. apply (range_from_multiples stop 0). Qed.

Lemma batch_num_multiple k : batch_num (k * batch_size) = Z.of_nat k + 1.
Proof. unfold batch_num. by rewrite Nat.div_mul. Qed.

(** The batch numbers of the turns are 1, 2, 3 and so on. *)
Lemma batch_nums_range stop :
  exists m, batch_num <$> range stop batch_size
            = (fun k => Z.of_nat k + 1) <$> seq 0 m.
Proof.
  destruct (range_multiples stop batch_size) as [m ->]. exists m.
  rewrite <- list_fmap_compose. apply list_fmap_ext.
  intros _ k _. simpl. apply batch_num_multiple.
Qed.

Lemma range_from_spec fuel a stop step i :
  (0 < step)%nat -> (stop <= a * step + fuel)%nat ->
  i ∈ range_from fuel (a * step) stop step <->
  exists k, (a <= k)%nat /\ i = (k * step)%nat /\ (i < stop)%nat.
Proof.
  intros Hstep. revert a. induction fuel as [|fuel IH]; intros a Hfuel; simpl.
  - split; [by intros ?%elem_of_nil|]. intros (k & Hk & -> & Hlt). nia.
  - destruct (Nat.ltb_spec (a * step) stop) as [Hlt|Hge].
    + replace (a * step + step)%nat with (S a * step)%nat by lia.
      rewrite elem_of_cons, IH by nia. split.
      * intros [->|(k & Hk & -> & Hi)].
        -- exists a. by repeat split.
        -- exists k. repeat split; [lia|done].
      * intros (k & Hk & -> & Hi).
        destruct (decide (k = a)) as [->|]; [by left|].
        right. exists k. repeat split; [lia|done].
    + split; [by intros ?%elem_of_nil|]. intros (k & Hk & -> & Hlt). nia.
Qed.

(** The turns of the loop: every multiple of the batch size below the
    number of identifiers. *)
Lemma elem_of_range stop i :
  i ∈ range stop batch_size <->
  exists k, i = (k * batch_size)%nat /\ (i < stop)%nat.
Proof.
  unfold range. rewrite (range_from_spec stop 0) by (unfold batch_size; lia).
  split.
  - intros (k & _ & ? & ?). by exists k.
  - intros (k & ? & ?). exists k. repeat split; [lia|done..].
Qed.

(** A turn splits the loop into the turns of the lower batch numbers and
    those of the higher ones. *)
Lemma range_split stop i :
  i ∈ range stop batch_size ->
  exists before after,
    range stop batch_size = (before ++ i :: after)%list
    /\ Forall (fun j => batch_num j < batch_num i) before
    /\ Forall (fun j => batch_num i < batch_num j) after.
Proof.
  destruct (range_multiples stop batch_size) as [m Hm]. rewrite Hm.
  intros (k & -> & Hk)%list_elem_of_fmap.
  apply elem_of_seq in Hk as [_ Hk]. simpl in Hk.
  exists ((fun k => (k * batch_size)%nat) <$> seq 0 k),
         ((fun k => (k * batch_size)%nat) <$> seq (S k) (m - S k)).
  split; [|split].
  - replace m with (k + S (m - S k))%nat at 1 by lia.
    by rewrite seq_app, fmap_app.
  - apply Forall_fmap, Forall_forall. intros j Hj%elem_of_seq. simpl.
    rewrite !batch_num_multiple. lia.
  - apply Forall_fmap, Forall_forall. intros j Hj%elem_of_seq. simpl.
    rewrite !batch_num_multiple. lia.
Qed.



(** ** What the discovery of identifiers touches *)

Lemma only_requests_refl st : only_requests st st.
Proof. repeat split; try done. exists []. by rewrite app_nil_r. Qed.

Lemma only_requests_trans st1 st2 st3 :
  only_requests st1 st2 -> only_requests st2 st3 -> only_requests st1 st3.
Proof.
  intros (? & ? & ? & ? & ? & urls1 & Ht1) (? & ? & ? & ? & ? & urls2 & Ht2).
  repeat split; try congruence.
  exists (urls1 ++ urls2)%list. by rewrite Ht2, Ht1, fmap_app, app_assoc.
Qed.

Lemma requests_get_only url st : only_requests st (snd (requests_get url st)).
Proof.
  unfold requests_get, mbind, M_bind, emit, get_state. simpl.
  destruct (web st url); simpl; (repeat split; try done); by exists [url].
Qed.

Lemma listing_loop_only fuel :
  forall urls st, only_requests st (snd (listing_loop fuel urls st)).
Proof.
  induction fuel as [|fuel IH]; intros urls st; [apply only_requests_refl|].
  simpl. destruct (last urls) as [u|]; [|apply only_requests_refl].
  unfold mbind, M_bind.
  pose proof (requests_get_only u st) as Hget.
  destruct (requests_get u st) as [[soup|e] st1]; [|done]. simpl in Hget.
  destruct (find_next_link soup) as [a|]; [|done].
  destruct (a_href a) as [href|]; [|done].
  eapply only_requests_trans; [exact Hget|apply IH].
Qed.

Lemma extract_ids_only url st : only_requests st (snd (extract_ids url st)).
Proof.
  unfold extract_ids, mbind, M_bind.
  pose proof (requests_get_only url st) as Hget.
  by destruct (requests_get url st) as [[soup|e] st1].
Qed.

Lemma collect_ids_only pages st : only_requests st (snd (collect_ids pages st)).
Proof.
  unfold collect_ids. generalize (@nil string) as acc.
  revert st. induction pages as [|page pages IH]; intros st acc.
  - apply only_requests_refl.
  - cbn [for_each]. unfold mbind at 1, M_bind at 1.
    pose proof (extract_ids_only page st) as Hex.
    unfold mbind, M_bind.
    destruct (extract_ids page st) as [[ids|e] st1]; [|done]. simpl in *.
    eapply only_requests_trans; [exact Hex|apply IH].
Qed.

(** ** A whole run *)

Lemma write_outputs_run all_data st :
  let st1 := State (web st) (schedule st) (float_repr st)
               (<[final_file := Pd.render (float_repr st) (Pd.DataFrame all_data)]>
                  (files st))
               (skipped_entries st) (trace st ++ [ToCsv final_file]) in
  write_outputs all_data st =
  (Ok tt,
   match skipped_entries st with
   | [] => st1
   | _ => State (web st) (schedule st) (float_repr st)
            (<[skipped_file :=
                 Pd.render (float_repr st)
                   (Pd.DataFrame_column "Skipped_IDs" (skipped_entries st))]>
               (files st1))
            (skipped_entries st)
            (trace st ++ [ToCsv final_file; ToCsv skipped_file])
   end).
Proof.
  intros st1. unfold write_outputs, mbind, M_bind. rewrite to_csv_run.
  unfold get_state. simpl. destruct (skipped_entries st); [done|].
  rewrite to_csv_run. simpl. by rewrite <- app_assoc.
Qed.

(** The stages of a run that ends well. *)
Lemma main_stages fuel st0 all_data st' :
  main fuel st0 = (Ok (Some all_data), st') ->
  exists pages st1 all_ids st2 st3,
    get_listing_pages fuel st0 = (Ok (Some pages), st1)
    /\ collect_ids pages st1 = (Ok all_ids, st2)
    /\ only_requests st0 st2
    /\ batch_loop all_ids (completed_of (files st0)) st2 = (Ok all_data, st3)
    /\ write_outputs all_data st3 = (Ok tt, st').
Proof.
  unfold main, mbind, M_bind.
  pose proof (listing_loop_only fuel [LISTING_URL] st0) as H1.
  fold (get_listing_pages fuel) in H1.
  destruct (get_listing_pages fuel st0) as [[[pages|]|e] st1] eqn:Hpages;
    [|done..].
  unfold crawl, mbind, M_bind.
  pose proof (collect_ids_only pages st1) as H2.
  destruct (collect_ids pages st1) as [[all_ids|e] st2] eqn:Hids; [|done].
  simpl in H1, H2.
  assert (H02 := only_requests_trans _ _ _ H1 H2).
  unfold load_completed_batches, mbind, M_bind, get_state.
  cbn [mret M_ret].
  destruct H02 as (Hw & Hs & Hr & Hf & Hrest). rewrite Hf.
  destruct (batch_loop all_ids (completed_of (files st0)) st2)
    as [[data|e] st3] eqn:Hloop; [|done].
  destruct (write_outputs data st3) as [[[]|e] st4] eqn:Hout; [|done].
  intros [= <- <-]. exists pages, st1, all_ids, st2, st3.
  destruct Hrest as [? ?]. repeat split; done.
Qed.

(** ** Resuming from checkpoints *)


(** The loop reaches a turn with the checkpoint of its batch as it was at
    the start. *)
Lemma loop_reaches_turn all_ids completed st all_data st3 i :
  batch_loop all_ids completed st = (Ok all_data, st3) ->
  i ∈ range (length all_ids) batch_size ->
  exists before after data_i st_i acc st_i',
    range (length all_ids) batch_size = (before ++ i :: after)%list
    /\ Forall (fun j => batch_num j < batch_num i) before
    /\ Forall (fun j => batch_num i < batch_num j) after
    /\ for_each before (process_batch all_ids completed) [] st = (Ok data_i, st_i)
    /\ files st_i !! checkpoint_path (batch_num i)
       = files st !! checkpoint_path (batch_num i)
    /\ process_batch all_ids completed data_i i st_i = (Ok acc, st_i')
    /\ for_each after (process_batch all_ids completed) acc st_i' = (Ok all_data, st3).
Proof.
  unfold batch_loop. intros Hloop Hi.
  destruct (range_split _ _ Hi) as (before & after & Hsplit & Hlow & Hhigh).
  rewrite Hsplit, for_each_app in Hloop.
  destruct (batch_turns_effects all_ids completed before [] st)
    as (_ & _ & _ & Hfiles & _).
  destruct (for_each before (process_batch all_ids completed) [] st)
    as [[data_i|e] st_i] eqn:Hbefore; [|done].
  cbn [for_each] in Hloop. unfold mbind, M_bind in Hloop.
  destruct (process_batch all_ids completed data_i i st_i)
    as [[acc|e] st_i'] eqn:Hturn; [|done].
  exists before, after, data_i, st_i, acc, st_i'.
  repeat split; try done.
  apply Hfiles. eapply Forall_impl; [exact Hlow|].
  intros j Hj Heq. apply checkpoint_path_inj in Heq. simpl in Hj. lia.
Qed.


(** ** Batches that leave no checkpoint *)




Lemma glob_match_outputs :
  glob_match final_file = false /\ glob_match skipped_file = false.
Proof. by vm_compute. Qed.

Lemma write_outputs_files all_data st path :
  glob_match path = true ->
  files (snd (write_outputs all_data st)) !! path = files st !! path.
Proof.
  intros Hglob. destruct glob_match_outputs as [Hf Hs].
  rewrite write_outputs_run. simpl.
  assert (path <> final_file) by congruence.
  assert (path <> skipped_file) by congruence.
  destruct (skipped_entries st); simpl; by rewrite !lookup_insert_ne.
Qed.




(** ** The final artifacts *)


Lemma writes_of_none path evs :
  Forall (fun ev => ev <> ToCsv path) evs -> writes_of path evs = 0%nat.
Proof.
  unfold writes_of. induction 1 as [|ev evs Hev _ IH]; [done|]. simpl.
  by rewrite bool_decide_eq_false_2.
Qed.

Lemma writes_of_gets path urls : writes_of path (Get <$> urls) = 0%nat.
Proof. apply writes_of_none, Forall_fmap, Forall_true. by intros url. Qed.

Lemma checkpoint_path_not_output n :
  checkpoint_path n <> final_file /\ checkpoint_path n <> skipped_file.
Proof.
  destruct glob_match_outputs as [Hf Hs]. pose proof (glob_match_checkpoint n).
  split; congruence.
Qed.

Lemma writes_of_batch_events path evs :
  glob_match path = false ->
  Forall (fun ev => exists n, batch_event n ev) evs ->
  writes_of path evs = 0%nat.
Proof.
  intros Hpath Hevs. apply writes_of_none.
  eapply Forall_impl; [exact Hevs|]. intros ev [n Hn] ->. simpl in Hn.
  subst path. by rewrite glob_match_checkpoint in Hpath.
Qed.





(** ** Saving and reloading a checkpoint *)

Lemma frame_columns_entries l :
  l <> [] -> Pd.frame_columns (entries l) = four_columns.
Proof.
  destruct l as [|p l]; [done|]. intros _. unfold Pd.frame_columns. simpl.
  change (foldl Pd.add_key [] _) with four_columns.
  induction l as [|q l IH]; [done|]. simpl.
  by change (foldl Pd.add_key four_columns _) with four_columns.
Qed.

Lemma DataFrame_entries l :
  l <> [] ->
  Pd.DataFrame (entries l)
  = Frame four_columns ((fun p => VStr <$> entry_texts p) <$> l).
Proof.
  intros Hl. unfold Pd.DataFrame. rewrite frame_columns_entries by done.
  f_equal. unfold entries. rewrite <- list_fmap_compose.
  apply list_fmap_ext. by intros _ [fid f] _.
Qed.

Lemma render_entries repr l :
  l <> [] ->
  Pd.render repr (Pd.DataFrame (entries l)) = Csv four_columns (entry_texts <$> l).
Proof.
  intros Hl. rewrite DataFrame_entries by done. unfold Pd.render. simpl.
  f_equal. change map with (@fmap list _). rewrite <- list_fmap_compose.
  apply list_fmap_ext. by intros _ [fid f] _.
Qed.





(** *** The reader's tokens *)





Lemma isdigit_not_space c :
  Py.isdigit c = true ->
  Pd.isspace_ascii c = false /\ Ascii.eqb c "e" = false
  /\ Ascii.eqb c "E" = false /\ Ascii.eqb c "." = false.
Proof. destruct c as [[] [] [] [] [] [] [] []]; by vm_compute. Qed.


Lemma split_exponent_digits ds :
  all_chars Py.isdigit ds = true -> Py.split_exponent ds = (ds, None).
Proof.
  induction ds as [|c ds IH]; simpl; [done|].
  rewrite andb_true_iff. intros [Hc Hds].
  apply isdigit_not_space in Hc as (_ & -> & -> & _). simpl.
  by rewrite IH.
Qed.

Lemma split_point_digits ds :
  all_chars Py.isdigit ds = true -> Py.split_point ds = (ds, "").
Proof.
  induction ds as [|c ds IH]; simpl; [done|].
  rewrite andb_true_iff. intros [Hc Hds].
  apply isdigit_not_space in Hc as (_ & _ & _ & ->).
  by rewrite IH.
Qed.






(** *** What the reader makes of a cell *)













(** ** The theorems at work on the example webs *)

Lemma extract_ids_accepts_demo :
  web demo_state LISTING_URL
  = Serves (Page [Anchor (Some "previous 500") None;
                  Anchor (Some "Next 500") (Some "/page2")]
                 ["FL0000000001"; " FL0000000002 "; "Main page"] [])
  /\ exists ids,
       fst (extract_ids LISTING_URL demo_state) = Ok ids
       /\ ids = ["FL0000000001"; "FL0000000002"].
Proof.
  split; [reflexivity|].
  destruct (extract_ids_accepts demo_state LISTING_URL _ eq_refl)
    as (ids & Hrun & Hids & _).
  exists ids. split; [exact Hrun|]. rewrite Hids. reflexivity.
Defined.



Lemma last_assignment_wins_demo :
  get_field FMass
    (scan_rows ([["Average Mass"; "268.2 g/mol"]]
                ++ ["Average mass"; "270 Da"] :: [["Average Mass"; "n/a"]]))
  = "270".
Proof.
  rewrite (proj1 last_assignment_wins FMass
             [["Average Mass"; "268.2 g/mol"]] ["Average mass"; "270 Da"]
             [["Average Mass"; "n/a"]]).
  - reflexivity.
  - reflexivity.
  - repeat constructor. vm_compute. discriminate.
Defined.

Lemma mass_row_demo :
  labelled "average mass" ["Average Mass"; "268.2 g/mol"] = true
  /\ labelled "smiles" ["Average Mass"; "268.2 g/mol"] = false
  /\ labelled "systematic name" ["Average Mass"; "268.2 g/mol"] = false
  /\ scan_row (Fields "CCO" "" "") ["Average Mass"; "268.2 g/mol"]
     = Fields "CCO" "" "268".
Proof.
  split; [reflexivity|]. split; [reflexivity|]. split; [reflexivity|].
  rewrite (proj1 (mass_row (Fields "CCO" "" "") ["Average Mass"; "268.2 g/mol"]
                    eq_refl eq_refl eq_refl)).
  reflexivity.
Defined.

Lemma get_listing_pages_follows_links_demo :
  listing_chain (web demo_state) LISTING_URL [LISTING_URL; BASE_URL ++ "/page2"]
  /\ get_listing_pages 2%nat demo_state
     = (Ok (Some [LISTING_URL; BASE_URL ++ "/page2"]),
        traced demo_state (Get <$> [LISTING_URL; BASE_URL ++ "/page2"])).
Proof.
  assert (Hchain : listing_chain (web demo_state) LISTING_URL
                     [LISTING_URL; BASE_URL ++ "/page2"]).
  { apply chain_next with (u' := BASE_URL ++ "/page2"); [reflexivity|].
    apply chain_stop. reflexivity. }
  split; [exact Hchain|].
  apply (proj1 (get_listing_pages_follows_links demo_state) _ 2%nat Hchain).
  simpl. lia.
Defined.


(** * Further properties of the script *)

(** ** The checkpoint store *)

(** X1.  A checkpoint that was saved is found again: after
    [save_checkpoint n data] with records in [data], the batches
    [load_completed_batches] reports are the ones it reported before,
    and [n]; the call reads the directory and changes nothing. *)
Theorem saved_checkpoint_is_completed n data st :
  data <> [] ->
  let st' := snd (save_checkpoint n data st) in
  load_completed_batches st' = (Ok (completed_of (files st) ∪ {[n]}), st').
Proof.
  intros Hdata st'.
  assert (Hfiles : exists text, files st' = <[checkpoint_path n := text]> (files st)).
  { unfold st'. rewrite save_checkpoint_run. destruct data; [done|].
    by eexists. }
  destruct Hfiles as [text Hfiles]. clearbody st'.
  unfold load_completed_batches, mbind, M_bind, get_state, mret, M_ret.
  f_equal. f_equal. rewrite Hfiles.
  apply set_eq. intros m.
  rewrite elem_of_union, elem_of_singleton, !elem_of_completed_of. split.
  - intros (f & Hf & Hglob & Hnum).
    destruct (decide (f = checkpoint_path n)) as [->|Hne].
    + right. rewrite batch_num_of_checkpoint in Hnum. congruence.
    + left. exists f. by rewrite lookup_insert_ne in Hf.
  - intros [(f & Hf & Hglob & Hnum)| ->].
    + exists f. split; [|done].
      apply lookup_insert_is_Some. destruct (decide (checkpoint_path n = f)); auto.
    + exists (checkpoint_path n). rewrite lookup_insert_eq.
      split; [by eexists|].
      split; [apply glob_match_checkpoint|apply batch_num_of_checkpoint].
Qed.

Lemma saved_checkpoint_is_completed_demo :
  fst (load_completed_batches
         (snd (save_checkpoint 7 [entry "FL0000000001" (Fields "CCO" "" "268")]
                 demo_state)))
  = Ok {[7]}.
Proof.
  rewrite (saved_checkpoint_is_completed 7
             [entry "FL0000000001" (Fields "CCO" "" "268")] demo_state);
    [|discriminate].
  cbn [fst]. f_equal.
Defined.

(** X2.  Each batch has a checkpoint file of its own: the paths of two
    batch numbers are equal only when the numbers are, every one of them
    is a name the directory scan finds and reads back as its number, and
    none is one of the two output files, which the scan never takes for
    checkpoints. *)
Theorem checkpoint_paths_apart n m :
  (checkpoint_path n = checkpoint_path m <-> n = m)
  /\ glob_match (checkpoint_path n) = true
  /\ batch_num_of (checkpoint_path n) = Some n
  /\ checkpoint_path n <> final_file
  /\ checkpoint_path n <> skipped_file
  /\ glob_match final_file = false
  /\ glob_match skipped_file = false.
Proof.
  split; [split; [apply checkpoint_path_inj|by intros ->]|].
  split; [apply glob_match_checkpoint|].
  split; [apply batch_num_of_checkpoint|].
  destruct (checkpoint_path_not_output n) as [H1 H2].
  destruct glob_match_outputs as [H3 H4]. done.
Qed.

(** ** The batches *)

Lemma batches_from fuel start step (l : list string) :
  (0 < step)%nat -> (length l <= start + fuel)%nat ->
  concat ((fun i => take step (drop i l)) <$> range_from fuel start (length l) step)
  = drop start l.
Proof.
  intros Hstep. revert start. induction fuel as [|fuel IH]; intros start Hlen.
  - simpl. symmetry. apply drop_ge. lia.
  - cbn [range_from]. destruct (Nat.ltb_spec start (length l)) as [Hlt|Hge].
    + cbn [fmap list_fmap concat]. rewrite IH by lia.
      rewrite <- drop_drop. apply take_drop.
    + simpl. symmetry. by apply drop_ge.
Qed.

Lemma range_length stop :
  length (range stop batch_size) = ((stop + 499) / 500)%nat.
Proof.
  destruct (range_multiples stop batch_size) as [m Hm].
  rewrite Hm, length_fmap, length_seq.
  assert (Hin : forall k, (k < m)%nat <-> (k * batch_size < stop)%nat).
  { intros k. split.
    - intros Hk.
      assert (Hel : (k * batch_size)%nat ∈ range stop batch_size).
      { rewrite Hm. apply list_elem_of_fmap. exists k. split; [done|].
        apply elem_of_seq. lia. }
      apply elem_of_range in Hel as (k' & _ & Hlt). exact Hlt.
    - intros Hk.
      assert (Hel : (k * batch_size)%nat ∈ range stop batch_size).
      { apply elem_of_range. by exists k. }
      rewrite Hm in Hel. apply list_elem_of_fmap in Hel as (k' & Heq & Hk').
      apply elem_of_seq in Hk'. unfold batch_size in Heq. lia. }
  unfold batch_size in Hin.
  assert (Hup : (stop <= m * 500)%nat).
  { destruct (Nat.le_gt_cases stop (m * 500)) as [|Hgt]; [done|].
    apply Hin in Hgt. lia. }
  assert (Hlow : (m * 500 < stop + 500)%nat).
  { destruct m as [|m]; [lia|].
    assert (Hlow := proj1 (Hin m) ltac:(lia)). lia. }
  apply (Nat.div_unique _ _ _ (stop + 499 - m * 500)); lia.
Qed.

(** X3.  The batches cut the identifier list into consecutive pieces:
    taken in order they give the list back, identifier for identifier and
    duplicates included; each holds at least one and at most 500
    identifiers; they are numbered 1, 2, 3 and so on, and there are as
    many as the length of the list divided by 500, rounded up. *)
Theorem batches_partition (all_ids : list string) :
  let turns := range (length all_ids) batch_size in
  concat (batch_ids all_ids <$> turns) = all_ids
  /\ Forall (fun i => (0 < length (batch_ids all_ids i) <= 500)%nat) turns
  /\ batch_num <$> turns = (fun k => Z.of_nat k + 1) <$> seq 0 (length turns)
  /\ length turns = ((length all_ids + 499) / 500)%nat.
Proof.
  intros turns. split.
  { unfold turns, range, batch_ids.
    rewrite (batches_from (length all_ids) 0 batch_size all_ids);
      [done|unfold batch_size; lia|lia]. }
  split.
  { apply Forall_forall. intros i Hi.
    apply elem_of_range in Hi as (k & _ & Hlt).
    unfold batch_ids, batch_size. rewrite length_take, length_drop. lia. }
  split; [|apply range_length].
  destruct (batch_nums_range (length all_ids)) as [m Hm]. fold turns in Hm.
  assert (Hlen : length turns = m).
  { rewrite <- (length_fmap batch_num), Hm, length_fmap. apply length_seq. }
  by rewrite Hlen.
Qed.

(** ** A whole run, whatever its outcome *)

Lemma main_run fuel st0 :
  (only_requests st0 (snd (main fuel st0))
   /\ (forall data, fst (main fuel st0) <> Ok (Some data))
   /\ forall pages st1 all_ids st2,
        get_listing_pages fuel st0 = (Ok (Some pages), st1) ->
        collect_ids pages st1 <> (Ok all_ids, st2))
  \/ exists pages st1 all_ids st2,
       get_listing_pages fuel st0 = (Ok (Some pages), st1)
       /\ collect_ids pages st1 = (Ok all_ids, st2)
       /\ only_requests st0 st2
       /\ main fuel st0 =
          match batch_loop all_ids (completed_of (files st0)) st2 with
          | (Ok data, st3) => (Ok (Some data), snd (write_outputs data st3))
          | (Raise e, st3) => (Raise e, st3)
          end.
Proof.
  unfold main, mbind, M_bind.
  pose proof (listing_loop_only fuel [LISTING_URL] st0) as H1.
  fold (get_listing_pages fuel) in H1.
  destruct (get_listing_pages fuel st0) as [[[pages|]|e] st1] eqn:Hpages;
    [|by left..].
  unfold crawl, mbind, M_bind.
  pose proof (collect_ids_only pages st1) as H2.
  destruct (collect_ids pages st1) as [[all_ids|e] st2] eqn:Hids.
  2:{ left. split; [eapply only_requests_trans; [exact H1|exact H2]|].
      split; [done|]. intros pages' st1' all_ids' st2' [= <- <-].
      by rewrite Hids. }
  simpl in H1, H2.
  assert (H02 := only_requests_trans _ _ _ H1 H2).
  right. exists pages, st1, all_ids, st2.
  split; [done|]. split; [done|]. split; [done|].
  unfold load_completed_batches, mbind, M_bind, get_state.
  cbn [mret M_ret].
  destruct H02 as (_ & _ & _ & Hf & _). rewrite Hf.
  destruct (batch_loop all_ids (completed_of (files st0)) st2)
    as [[data|e] st3]; [|done].
  rewrite write_outputs_run. cbn [fst snd]. done.
Qed.

Lemma batch_turns_keep all_ids completed path turns :
  forall all_data st,
    (forall i, i ∈ turns -> batch_num i ∉ completed ->
               path <> checkpoint_path (batch_num i)) ->
    files (snd (for_each turns (process_batch all_ids completed) all_data st))
      !! path
    = files st !! path.
Proof.
  induction turns as [|i turns IH]; intros all_data st Hpath; [done|].
  cbn [for_each]. unfold mbind, M_bind.
  assert (Hturn : files (snd (process_batch all_ids completed all_data i st))
                    !! path = files st !! path).
  { destruct (decide (batch_num i ∈ completed)) as [Hin|Hout].
    - by rewrite process_batch_completed.
    - destruct (process_batch_effects all_ids completed all_data i st)
        as (_ & _ & _ & Hfiles & _).
      apply Hfiles, Hpath; [left|done]. }
  destruct (process_batch all_ids completed all_data i st) as [[acc|e] st1];
    [|exact Hturn].
  cbn [snd] in Hturn. rewrite <- Hturn. apply IH.
  intros j Hj. apply Hpath. by right.
Qed.

Lemma main_keeps fuel st0 path :
  is_Some (files st0 !! path) ->
  path <> final_file -> path <> skipped_file ->
  files (snd (main fuel st0)) !! path = files st0 !! path.
Proof.
  intros Hpresent Hfinal Hskipped.
  destruct (main_run fuel st0)
    as [[(_ & _ & _ & Hf & _) _]
       |(pages & st1 & all_ids & st2 & _ & _ & Hreq & ->)];
    [by rewrite Hf|].
  destruct Hreq as (_ & _ & _ & Hf & _).
  assert (Hloop : files (snd (batch_loop all_ids (completed_of (files st0)) st2))
                    !! path = files st0 !! path).
  { unfold batch_loop. rewrite batch_turns_keep; [by rewrite Hf|].
    intros i _ Hout ->. apply Hout.
    by apply checkpoint_present_completed. }
  destruct (batch_loop all_ids (completed_of (files st0)) st2)
    as [[data|e] st3]; [|exact Hloop].
  cbn [snd] in *. rewrite write_outputs_run. cbn [snd].
  destruct (skipped_entries st3); cbn [files].
  - by rewrite lookup_insert_ne.
  - by rewrite !lookup_insert_ne.
Qed.

Lemma batch_turns_grow all_ids completed path turns :
  forall all_data st,
    is_Some (files st !! path) ->
    is_Some (files (snd (for_each turns (process_batch all_ids completed)
                           all_data st)) !! path).
Proof.
  induction turns as [|i turns IH]; intros all_data st Hpath; [done|].
  cbn [for_each]. unfold mbind, M_bind.
  assert (Hturn : is_Some (files (snd (process_batch all_ids completed
                                         all_data i st)) !! path)).
  { destruct (decide (batch_num i ∈ completed)) as [Hin|Hout].
    - by rewrite process_batch_completed.
    - rewrite process_batch_fresh by done. cbv zeta. cbn [snd].
      rewrite save_checkpoint_run. cbn [snd].
      destruct (omap _ _); cbn [files]; [done|].
      apply lookup_insert_is_Some'. by right. }
  destruct (process_batch all_ids completed all_data i st) as [[acc|e] st1];
    [|exact Hturn].
  by apply IH.
Qed.

(** X4.  A run changes no file it finds and removes none: whatever the
    outcome, a file present at the start is present at the end, and
    unless it is one of the two output files it has the same content.
    The checkpoints of earlier runs are among them. *)
Theorem main_keeps_files fuel st0 path :
  is_Some (files st0 !! path) ->
  is_Some (files (snd (main fuel st0)) !! path)
  /\ (path <> final_file -> path <> skipped_file ->
      files (snd (main fuel st0)) !! path = files st0 !! path).
Proof.
  intros Hpresent. split; [|by apply main_keeps].
  destruct (main_run fuel st0)
    as [[(_ & _ & _ & Hf & _) _]
       |(pages & st1 & all_ids & st2 & _ & _ & Hreq & ->)];
    [by rewrite Hf|].
  destruct Hreq as (_ & _ & _ & Hf & _).
  pose proof (batch_turns_grow all_ids (completed_of (files st0)) path
                (range (length all_ids) batch_size) [] st2
                ltac:(by rewrite Hf)) as Hloop.
  fold (batch_loop all_ids (completed_of (files st0))) in Hloop.
  destruct (batch_loop all_ids (completed_of (files st0)) st2)
    as [[data|e] st3]; [|exact Hloop].
  cbn [snd] in *. rewrite write_outputs_run. cbn [snd].
  destruct (skipped_entries st3); cbn [files];
    repeat (apply lookup_insert_is_Some'; right); exact Hloop.
Qed.

Lemma main_keeps_files_demo :
  files (snd (main 5%nat resumed_state)) !! checkpoint_path 1
  = files resumed_state !! checkpoint_path 1.
Proof.
  apply (main_keeps_files 5%nat resumed_state (checkpoint_path 1)).
  - vm_compute. eexists. reflexivity.
  - discriminate.
  - discriminate.
Defined.

Lemma main_after_collect fuel st0 pages st1 all_ids st2 :
  get_listing_pages fuel st0 = (Ok (Some pages), st1) ->
  collect_ids pages st1 = (Ok all_ids, st2) ->
  only_requests st0 st2
  /\ main fuel st0 =
     match batch_loop all_ids (completed_of (files st0)) st2 with
     | (Ok data, st3) => (Ok (Some data), snd (write_outputs data st3))
     | (Raise e, st3) => (Raise e, st3)
     end.
Proof.
  intros Hpages Hids.
  destruct (main_run fuel st0)
    as [(_ & _ & Hno)
       |(pages' & st1' & all_ids' & st2' & Hpages' & Hids' & Hreq & Hmain)].
  - by destruct (Hno _ _ _ _ Hpages Hids).
  - rewrite Hpages in Hpages'. injection Hpages' as <- <-.
    rewrite Hids in Hids'. injection Hids' as <- <-. done.
Qed.

(** X5.  The directory scan trusts names: a file that reads as batch [N]
    (say [checkpoint_1_old.csv]) marks the batch as done even when
    [checkpoint_N.csv] itself is missing.  A run that has a batch [N] then
    ends with an exception, when it comes to read the missing file at the
    latest, and leaves the final file as it was. *)
Theorem missing_checkpoint_aborts fuel st0 N pages st1 all_ids st2 :
  N ∈ completed_of (files st0) ->
  files st0 !! checkpoint_path N = None ->
  get_listing_pages fuel st0 = (Ok (Some pages), st1) ->
  collect_ids pages st1 = (Ok all_ids, st2) ->
  1 <= N -> (Z.to_nat (N - 1) * 500 < length all_ids)%nat ->
  (exists e, fst (main fuel st0) = Raise e)
  /\ files (snd (main fuel st0)) !! final_file = files st0 !! final_file.
Proof.
  intros Hdone Hmissing Hpages Hids HN Hlen.
  destruct (main_after_collect _ _ _ _ _ _ Hpages Hids) as [Hreq ->].
  destruct Hreq as (_ & _ & _ & Hf & _).
  set (i := (Z.to_nat (N - 1) * batch_size)%nat).
  assert (Hnum : batch_num i = N).
  { unfold i. rewrite batch_num_multiple. lia. }
  assert (Hi : i ∈ range (length all_ids) batch_size).
  { apply elem_of_range. by exists (Z.to_nat (N - 1)). }
  destruct (range_split _ _ Hi) as (before & after & Hsplit & Hlow & _).
  assert (Hfinal : forall turns data st,
            files (snd (for_each turns
                          (process_batch all_ids (completed_of (files st0)))
                          data st)) !! final_file
            = files st !! final_file).
  { intros turns data st.
    destruct (batch_turns_effects all_ids (completed_of (files st0)) turns data st)
      as (_ & _ & _ & Hfiles & _).
    apply Hfiles, Forall_forall. intros j _ Heq.
    by destruct (checkpoint_path_not_output (batch_num j)). }
  assert (Hraise : exists e st3,
            batch_loop all_ids (completed_of (files st0)) st2 = (Raise e, st3)).
  { unfold batch_loop. rewrite Hsplit, for_each_app.
    destruct (batch_turns_effects all_ids (completed_of (files st0)) before [] st2)
      as (_ & _ & _ & Hfiles & _).
    destruct (for_each before _ [] st2) as [[data_i|e] st_i]; [|by eauto].
    cbn [snd] in Hfiles. cbn [for_each]. unfold mbind, M_bind.
    rewrite process_batch_completed by by rewrite Hnum.
    rewrite Hnum, Hfiles, Hf, Hmissing; [by eauto|].
    apply Forall_forall. intros j Hj Heq. apply checkpoint_path_inj in Heq.
    rewrite Forall_forall in Hlow. specialize (Hlow j Hj). lia. }
  destruct Hraise as (e & st3 & Hloop).
  specialize (Hfinal (range (length all_ids) batch_size) [] st2).
  fold (batch_loop all_ids (completed_of (files st0))) in Hfinal.
  rewrite Hloop in *. cbn [fst snd] in *.
  split; [by eauto|]. by rewrite Hfinal, Hf.
Qed.

Lemma missing_checkpoint_aborts_demo :
  fst (main 5%nat stray_state)
  = Raise (FileNotFoundError "checkpoints/checkpoint_1.csv").
Proof.
  destruct (missing_checkpoint_aborts 5%nat stray_state 1
              [LISTING_URL; BASE_URL ++ "/page2"]
              (snd (get_listing_pages 5%nat stray_state))
              ["FL0000000001"; "FL0000000002"; "FL0000000003"]
              (snd (collect_ids [LISTING_URL; BASE_URL ++ "/page2"]
                      (snd (get_listing_pages 5%nat stray_state)))))
    as [[e He] _].
  - by vm_compute.
  - by vm_compute.
  - by vm_compute.
  - by vm_compute.
  - lia.
  - simpl. lia.
  - by vm_compute.
Defined.

(** ** Collecting the identifiers *)

Lemma extract_ids_served st url :
  served (web st) url ->
  extract_ids url st = (Ok (page_ids (web st) url), traced st [Get url]).
Proof.
  intros [soup Hsoup]. unfold extract_ids, page_ids.
  erewrite bind_ok by by apply requests_get_serves.
  rewrite Hsoup. cbn [mret M_ret]. by rewrite extract_loop.
Qed.

Lemma collect_loop pages :
  forall acc st,
    Forall (served (web st)) pages ->
    for_each pages
      (fun (all_ids : list string) page =>
         ids ← extract_ids page; mret (all_ids ++ ids)%list) acc st
    = (Ok (acc ++ concat (page_ids (web st) <$> pages))%list,
       traced st (Get <$> pages)).
Proof.
  induction pages as [|page pages IH]; intros acc st Hserved.
  - simpl. by rewrite app_nil_r, traced_nil.
  - apply Forall_cons in Hserved as [Hpage Hserved].
    cbn [for_each]. unfold mbind at 1, M_bind at 1.
    erewrite bind_ok by by apply extract_ids_served.
    cbn [mret M_ret]. rewrite IH by done.
    cbn [fmap list_fmap concat]. by rewrite traced_traced, <- app_assoc.
Qed.

Lemma collect_loop_fails before url after e :
  forall acc st,
    Forall (served (web st)) before ->
    web st url = Fails e ->
    for_each (before ++ url :: after)
      (fun (all_ids : list string) page =>
         ids ← extract_ids page; mret (all_ids ++ ids)%list) acc st
    = (Raise e, traced st (Get <$> (before ++ [url])%list)).
Proof.
  intros acc st Hserved Hfails. rewrite for_each_app, collect_loop by done.
  cbn [for_each]. unfold mbind, M_bind. cbn beta.
  assert (Hex : extract_ids url (traced st (Get <$> before))
                = (Raise e, traced (traced st (Get <$> before)) [Get url])).
  { unfold extract_ids. apply bind_raise. by apply requests_get_fails. }
  rewrite Hex. by rewrite fmap_app, <- traced_traced.
Qed.

Lemma listing_loop_state fuel :
  forall pre u st urls st',
    listing_loop fuel (pre ++ [u]) st = (Ok (Some urls), st') ->
    exists visited,
      urls = (pre ++ visited)%list
      /\ listing_chain (web st) u visited
      /\ st' = traced st (Get <$> visited).
Proof.
  induction fuel as [|fuel IH]; intros pre u st urls st' Hrun; [done|].
  rewrite listing_loop_turn in Hrun.
  destruct (listing_step (web st) u) as [|u'|e] eqn:Hstep.
  - injection Hrun as <- <-. exists [u]. split; [done|].
    split; [by constructor|done].
  - apply IH in Hrun as (visited & -> & Hchain & ->).
    exists (u :: visited). split; [by rewrite <- app_assoc|].
    split; [by econstructor|]. by rewrite traced_traced.
  - done.
Qed.

Lemma listing_chain_served w u urls :
  listing_chain w u urls -> Forall (served w) urls.
Proof.
  assert (Hstep : forall v, (forall e, listing_step w v <> Error e) -> served w v).
  { intros v Hv. unfold listing_step in Hv. unfold served.
    destruct (w v); first [by eexists|by edestruct Hv]. }
  induction 1 as [v Hv|v v' urls Hv _ IH].
  - repeat constructor. apply Hstep. intros e. by rewrite Hv.
  - constructor; [|exact IH]. apply Hstep. intros e. by rewrite Hv.
Qed.

Lemma collect_after_listing fuel st pages st1 :
  get_listing_pages fuel st = (Ok (Some pages), st1) ->
  collect_ids pages st1
  = (Ok (concat (page_ids (web st) <$> pages)),
     traced st ((Get <$> pages) ++ (Get <$> pages))%list).
Proof.
  intros Hpages.
  apply (listing_loop_state fuel [] LISTING_URL) in Hpages
    as (visited & -> & Hchain & ->).
  cbn [app]. unfold collect_ids.
  rewrite collect_loop by by eapply listing_chain_served.
  by rewrite traced_traced.
Qed.

(** X6.  The identifiers of a run are those of its listing pages, page
    after page in the order of the pages, duplicates across pages kept.
    Every listing page is requested twice: once when the pages are
    found, each page once and in their order, and a second time for its
    identifiers (in a web that answers a URL the same way each time). *)
Theorem listing_pages_requested_twice fuel st pages st1 :
  get_listing_pages fuel st = (Ok (Some pages), st1) ->
  st1 = traced st (Get <$> pages)
  /\ collect_ids pages st1
     = (Ok (concat (page_ids (web st) <$> pages)),
        traced st ((Get <$> pages) ++ (Get <$> pages))%list).
Proof.
  intros Hpages. split; [|by eapply collect_after_listing].
  by apply (listing_loop_state fuel [] LISTING_URL) in Hpages
    as (visited & -> & _ & ->).
Qed.

Lemma listing_pages_requested_twice_demo :
  collect_ids [LISTING_URL; BASE_URL ++ "/page2"]
    (snd (get_listing_pages 5%nat demo_state))
  = (Ok ["FL0000000001"; "FL0000000002"; "FL0000000003"],
     traced demo_state
       (Get <$> [LISTING_URL; BASE_URL ++ "/page2";
                 LISTING_URL; BASE_URL ++ "/page2"])).
Proof.
  rewrite (proj2 (listing_pages_requested_twice 5%nat demo_state
                    [LISTING_URL; BASE_URL ++ "/page2"]
                    (snd (get_listing_pages 5%nat demo_state))
                    ltac:(by vm_compute))).
  by vm_compute.
Defined.

(** X7.  [extract_ids] lets a failed request through, and so does the
    loop around it: when a listing page cannot be fetched for its
    identifiers, the run ends there with that exception, after one request
    for each page before it and for the page itself; no entry was
    requested, no file written, nothing noted as skipped. *)
Theorem extraction_error_aborts before url after e st :
  Forall (served (web st)) before ->
  web st url = Fails e ->
  crawl (before ++ url :: after) st
  = (Raise e, traced st (Get <$> (before ++ [url])%list)).
Proof.
  intros Hserved Hfails. unfold crawl, collect_ids.
  erewrite bind_raise; [done|]. by apply collect_loop_fails.
Qed.

Lemma extraction_error_aborts_demo :
  crawl [LISTING_URL; BASE_URL ++ "/gone"; BASE_URL ++ "/page2"] demo_state
  = (Raise (RequestException (BASE_URL ++ "/gone")),
     traced demo_state [Get LISTING_URL; Get (BASE_URL ++ "/gone")]).
Proof.
  apply (extraction_error_aborts [LISTING_URL] (BASE_URL ++ "/gone")
           [BASE_URL ++ "/page2"]).
  - repeat constructor. eexists. by vm_compute.
  - by vm_compute.
Defined.

(** ** One batch on the thread pool *)

Lemma filter_perm {A} (p : A -> bool) (l l' : list A) :
  l ≡ₚ l' -> List.filter p l ≡ₚ List.filter p l'.
Proof.
  induction 1 as [|x l l' _ IH|x y l|l l' l'' _ IH1 _ IH2]; simpl.
  - done.
  - destruct (p x); [by constructor|done].
  - destruct (p x), (p y); try done. apply perm_swap.
  - by etrans.
Qed.

(** X8.  The order in which the threads of a batch finish shows in the
    order of the results and in nothing else.  Whatever the schedule, the
    pool makes one request for each identifier of the batch (as often as
    it occurs), touches no file, and returns the records the identifiers
    have in the web and notes the identifiers that have none, both up to
    order. *)
Theorem pool_schedule_immaterial batch_ids st :
  exists batch_data new_skipped requests,
    run_pool batch_ids st
    = (Ok batch_data,
       State (web st) (schedule st) (float_repr st) (files st)
             (skipped_entries st ++ new_skipped) (trace st ++ requests))
    /\ (batch_data ≡ₚ omap (served_record (web st)) batch_ids)
    /\ (new_skipped ≡ₚ List.filter (skips (web st)) batch_ids)
    /\ (requests ≡ₚ Get ∘ entry_url <$> batch_ids).
Proof.
  eexists _, _, _. split; [apply run_pool_run|].
  pose proof (pool_order_perm st batch_ids) as Hperm.
  split; [by rewrite Hperm|]. split; [by apply filter_perm|].
  by rewrite Hperm.
Qed.

(** ** What a run returns *)

Lemma batch_turns_result w fs all_ids turns :
  forall acc st r st',
    web st = w ->
    (forall N, N ∈ completed_of fs ->
               files st !! checkpoint_path N = fs !! checkpoint_path N) ->
    for_each turns (process_batch all_ids (completed_of fs)) acc st = (Ok r, st') ->
    exists parts,
      r = (acc ++ concat parts)%list
      /\ Forall2 (batch_part w fs all_ids) turns parts.
Proof.
  induction turns as [|i turns IH]; intros acc st r st' Hweb Hfiles Hrun.
  - injection Hrun as <- <-. exists []. by rewrite app_nil_r.
  - cbn [for_each] in Hrun. unfold mbind, M_bind in Hrun.
    destruct (process_batch_effects all_ids (completed_of fs) acc i st)
      as (Hweb1 & _ & _ & Hfiles1 & _).
    destruct (process_batch all_ids (completed_of fs) acc i st)
      as [[acc1|e] st1] eqn:Hturn; [|done].
    cbn [snd] in Hweb1, Hfiles1.
    assert (Hpart : exists part, acc1 = (acc ++ part)%list
                                 /\ batch_part w fs all_ids i part
                                 /\ forall N, N ∈ completed_of fs ->
                                      files st1 !! checkpoint_path N
                                      = fs !! checkpoint_path N).
    { unfold batch_part.
      destruct (decide (batch_num i ∈ completed_of fs)) as [Hin|Hout].
      - rewrite process_batch_completed in Hturn by done.
        rewrite (Hfiles _ Hin) in Hturn.
        destruct (fs !! checkpoint_path (batch_num i)) as [text|] eqn:Hfile;
          [|done].
        destruct (header text) as [|c cs] eqn:Hheader; [done|].
        injection Hturn as <- <-. exists (reloaded text).
        split; [done|]. split; [|exact Hfiles].
        exists text. by rewrite Hheader.
      - rewrite process_batch_fresh in Hturn by done.
        injection Hturn as <- _.
        exists (omap (served_record (web st)) (pool_order st (batch_ids all_ids i))).
        split; [done|]. split.
        + eexists. split; [apply pool_order_perm|by rewrite Hweb].
        + intros N HN. rewrite Hfiles1; [by apply Hfiles|].
          intros Heq. apply checkpoint_path_inj in Heq. congruence. }
    destruct Hpart as (part & -> & Hpart & Hfiles').
    destruct (IH _ _ _ _ (eq_trans Hweb1 Hweb) Hfiles' Hrun) as (parts & -> & Hparts).
    exists (part :: parts). split; [by rewrite <- app_assoc|].
    by constructor.
Qed.

(** X9.  What a run that ends well returns.  The listing pages are
    those the next links lead through from the seed; the identifiers are
    those of the pages, in order; the records are those of the batches, in
    the order of the batches: for a batch the directory scan reported at
    the start, the records of its checkpoint as they are read back, and
    for any other batch the records its identifiers have in the web, in
    some order. *)
Theorem main_returns fuel st0 all_data st' :
  main fuel st0 = (Ok (Some all_data), st') ->
  exists pages parts,
    listing_chain (web st0) LISTING_URL pages
    /\ let all_ids := concat (page_ids (web st0) <$> pages) in
       all_data = concat parts
       /\ Forall2 (batch_part (web st0) (files st0) all_ids)
                  (range (length all_ids) batch_size) parts.
Proof.
  intros Hmain.
  apply main_stages in Hmain
    as (pages & st1 & all_ids & st2 & st3 & Hpages & Hids & Hreq & Hloop & _).
  rewrite (collect_after_listing _ _ _ _ Hpages) in Hids.
  injection Hids as <- _.
  apply (listing_loop_state fuel [] LISTING_URL) in Hpages
    as (visited & -> & Hchain & _).
  destruct Hreq as (Hweb & _ & _ & Hfiles & _).
  exists visited. cbn [app].
  destruct (batch_turns_result (web st0) (files st0) _ _ _ _ _ _ Hweb
              ltac:(by intros; rewrite Hfiles) Hloop)
    as (parts & -> & Hparts).
  by exists parts.
Qed.

Lemma main_returns_demo :
  exists pages parts,
    listing_chain (web demo_state) LISTING_URL pages
    /\ [entry "FL0000000001" (Fields "CCO" "" "268")] = concat parts.
Proof.
  destruct (main_returns 5%nat demo_state
              [entry "FL0000000001" (Fields "CCO" "" "268")]
              (snd (main 5%nat demo_state)))
    as (pages & parts & Hchain & Hdata & _).
  { by vm_compute. }
  by exists pages, parts.
Defined.

(** ** The output files *)

(** X10.  The skipped file of a run that ends well: when the run has
    identifiers noted as skipped, the file gets the column [Skipped_IDs]
    with one line for each, in the order they were noted; when it has
    none, the file is not touched, so that one left by an earlier run
    stays as it is.  Identifiers noted before are never dropped. *)
Theorem skipped_file_contents fuel st0 all_data st' :
  main fuel st0 = (Ok (Some all_data), st') ->
  files st' !! skipped_file
  = match skipped_entries st' with
    | [] => files st0 !! skipped_file
    | l => Some (Csv ["Skipped_IDs"] ((fun fid => [fid]) <$> l))
    end
  /\ exists new, skipped_entries st' = (skipped_entries st0 ++ new)%list.
Proof.
  intros Hmain.
  apply main_stages in Hmain
    as (pages & st1 & all_ids & st2 & st3 & _ & _ & Hreq & Hloop & Hout).
  destruct Hreq as (_ & _ & _ & Hfiles & Hskipped & _).
  destruct (batch_turns_effects all_ids (completed_of (files st0))
              (range (length all_ids) batch_size) [] st2)
    as (_ & _ & _ & Hkeep & _ & new & Hnew).
  fold (batch_loop all_ids (completed_of (files st0))) in Hkeep, Hnew.
  rewrite Hloop in Hkeep, Hnew. cbn [snd] in Hkeep, Hnew.
  specialize (Hkeep skipped_file).
  rewrite Hfiles in Hkeep. rewrite Hskipped in Hnew.
  rewrite write_outputs_run in Hout. injection Hout as <-.
  destruct (skipped_entries st3) as [|fid l] eqn:Hl; cbn [skipped_entries files].
  - split; [|by exists new].
    rewrite lookup_insert_ne by done. apply Hkeep, Forall_forall.
    intros i _ Heq. by destruct (checkpoint_path_not_output (batch_num i)).
  - split; [|by exists new].
    rewrite lookup_insert_eq. f_equal. unfold Pd.render, Pd.DataFrame_column.
    cbn [columns rows]. f_equal.
    change (map ?f ?l) with (f <$> l).
    rewrite <- list_fmap_compose. by apply list_fmap_ext.
Qed.

Lemma skipped_file_contents_demo :
  files (snd (main 5%nat demo_state)) !! skipped_file
  = Some (Csv ["Skipped_IDs"] [["FL0000000002"]; ["FL0000000003"]]).
Proof.
  destruct (skipped_file_contents 5%nat demo_state
              [entry "FL0000000001" (Fields "CCO" "" "268")]
              (snd (main 5%nat demo_state))) as [Hfile _].
  { by vm_compute. }
  rewrite Hfile. by vm_compute.
Defined.

(** ** The fields of an entry *)

Lemma parse_mass_integer value m :
  parse_mass value = Some m -> exists z, m = Py.str z.
Proof.
  unfold parse_mass. intros H.
  destruct (head (Py.split_ws value)) as [tok|]; [|done]. simpl in H.
  destruct (Py.float tok) as [x|]; [|done]. simpl in H.
  destruct (Py.int_of_float x) as [z|]; [|done]. simpl in H.
  injection H as <-. by exists z.
Qed.

(** X11.  Whatever the rows of a page, the average mass of the record
    is empty or the decimal text of an integer, which [int] reads back:
    a mass that does not parse never gets into a record, nor a fraction,
    an exponent or a unit. *)
Theorem mass_is_integer_text rows :
  avg_mass (scan_rows rows) = ""
  \/ exists z, avg_mass (scan_rows rows) = Py.str z
               /\ Py.int (avg_mass (scan_rows rows)) = Some z.
Proof.
  unfold scan_rows.
  assert (Hinv : forall f,
            (avg_mass f = "" \/ exists z, avg_mass f = Py.str z) ->
            avg_mass (foldl scan_row f rows) = ""
            \/ exists z, avg_mass (foldl scan_row f rows) = Py.str z).
  { induction rows as [|row rows IH]; intros f Hf; [exact Hf|].
    cbn [foldl]. apply IH. unfold scan_row.
    destruct row as [|c0 [|c1 rest]]; [exact Hf..|].
    destruct (Py.contains (Py.lower c0) "smiles"); [exact Hf|].
    destruct (Py.contains (Py.lower c0) "systematic name"); [exact Hf|].
    destruct (Py.contains (Py.lower c0) "average mass"); [|exact Hf].
    destruct (parse_mass c1) as [m|] eqn:Hm; [|exact Hf].
    right. by apply parse_mass_integer in Hm. }
  destruct (Hinv (Fields "" "" "") (or_introl eq_refl)) as [Hempty|[z Hz]].
  - by left.
  - right. exists z. split; [exact Hz|]. rewrite Hz. apply int_str.
Qed.

(** X12.  The checkpoint a batch leaves: the four column names of a
    record in the order of its keys, then one line for each record, in
    the order of the list, holding the four texts as they are; no index
    column.  A file already at that path is replaced; nothing else
    changes but the note of the write. *)
Theorem checkpoint_layout n l st :
  l <> [] ->
  save_checkpoint n (entries l) st
  = (Ok tt,
     State (web st) (schedule st) (float_repr st)
           (<[checkpoint_path n := Csv four_columns (entry_texts <$> l)]> (files st))
           (skipped_entries st) (trace st ++ [ToCsv (checkpoint_path n)])).
Proof.
  intros Hl. rewrite save_checkpoint_run.
  assert (Hne : entries l <> []) by by destruct l.
  destruct (entries l) as [|r rs] eqn:He; [done|]. rewrite <- He.
  by rewrite render_entries.
Qed.

Lemma checkpoint_layout_demo :
  files (snd (save_checkpoint 1 (entries [("FL0000000001", Fields "CCO" "" "268")])
                demo_state)) !! "checkpoints/checkpoint_1.csv"
  = Some (Csv ["Flavonoid_ID"; "Systematic_Name"; "SMILES"; "Average_Mass"]
              [["FL0000000001"; ""; "CCO"; "268"]]).
Proof.
  rewrite (checkpoint_layout 1 [("FL0000000001", Fields "CCO" "" "268")] demo_state);
    [|discriminate].
  by vm_compute.
Defined.

(** ** Names the directory scan takes for checkpoints *)

Lemma split_on_first sep s r :
  all_chars (fun c => negb (Ascii.eqb c sep)) s = true ->
  Py.split_on sep (s ++ String sep r) !! 0%nat = Some s.
Proof.
  intros Hs. rewrite split_on_app by done.
  cbn [Py.split_on]. rewrite Ascii.eqb_refl. simpl.
  by rewrite string_app_nil_r.
Qed.

Lemma split_on_first_app sep s t :
  all_chars (fun c => negb (Ascii.eqb c sep)) s = true ->
  exists p, Py.split_on sep (s ++ t) !! 0%nat = Some (s ++ p)
            /\ Py.split_on sep t !! 0%nat = Some p.
Proof.
  intros Hs. rewrite split_on_app by done.
  pose proof (split_on_nonempty sep t) as Hne.
  destruct (Py.split_on sep t) as [|p ps]; [done|]. by exists p.
Qed.

Lemma glob_match_stem stem :
  all_chars (fun c => negb (Ascii.eqb c "/")) stem = true ->
  glob_match (path_join checkpoint_dir (("checkpoint_" ++ stem) ++ ".csv")) = true.
Proof.
  intros Hstem. unfold glob_match, path_join, checkpoint_dir.
  set (name := ("checkpoint_" ++ stem) ++ ".csv").
  change ("checkpoints" ++ "/" ++ name) with (("checkpoints" ++ "/") ++ name).
  rewrite substring_drop.
  assert (Hlen : (15 <= String.length name)%nat).
  { unfold name. rewrite !string_length_app. simpl. lia. }
  assert (Hends : endswith name ".csv" = true).
  { unfold endswith. apply andb_true_iff. split.
    { apply Nat.leb_le. simpl. lia. }
    apply String.eqb_eq. apply substring_suffix. }
  rewrite Hends, prefix_app.
  replace (String.prefix "checkpoint_" name) with true.
  2:{ symmetry. unfold name. rewrite string_app_assoc. apply prefix_app. }
  rewrite contains_char_plain; last first.
  { unfold name. rewrite !all_chars_app, Hstem. done. }
  clearbody name. cbn [andb negb]. apply Nat.leb_le. lia.
Qed.

(** X13.  The directory scan reads the batch number off the text
    between the first underscore of the file name and the next underscore
    or dot.  So a copy of a checkpoint kept in the directory under a name
    like [checkpoint_3_old.csv] or [checkpoint_3.bak.csv] marks batch 3 as
    done, whether [checkpoint_3.csv] is there or not. *)
Theorem renamed_checkpoint_counts n sep more fs :
  sep = "_"%char \/ sep = "."%char ->
  all_chars (fun c => negb (Ascii.eqb c "/")) more = true ->
  is_Some (fs !! renamed_checkpoint n sep more) ->
  glob_match (renamed_checkpoint n sep more) = true
  /\ batch_num_of (renamed_checkpoint n sep more) = Some n
  /\ n ∈ completed_of fs.
Proof.
  intros Hsep Hmore Hfile.
  assert (Hslash : all_chars (fun c => negb (Ascii.eqb c "/"))
                     (Py.str n ++ String sep more) = true).
  { rewrite all_chars_app, str_plain by done. cbn [all_chars andb].
    rewrite Hmore. by destruct Hsep as [-> | ->]. }
  assert (Hglob : glob_match (renamed_checkpoint n sep more) = true).
  { unfold renamed_checkpoint. by apply glob_match_stem. }
  assert (Hnum : batch_num_of (renamed_checkpoint n sep more) = Some n).
  { unfold batch_num_of, basename, renamed_checkpoint, path_join, checkpoint_dir.
    remember (("checkpoint_" ++ Py.str n ++ String sep more) ++ ".csv") as name
      eqn:Hname.
    assert (Hplain : all_chars (fun c => negb (Ascii.eqb c "/")) name = true).
    { rewrite Hname, !all_chars_app.
      rewrite all_chars_app in Hslash. by rewrite Hslash. }
    rewrite split_on_app by done.
    cbv [String.append]; fold String.append.
    cbn [Py.split_on Ascii.eqb Bool.eqb].
    rewrite (split_on_plain "/" name) by done. cbn [last default].
    assert (Hshape : name = "checkpoint" ++ "_" ++ Py.str n
                              ++ String sep (more ++ ".csv")).
    { rewrite Hname, !string_app_assoc. reflexivity. }
    rewrite Hshape. clear Hname Hshape Hplain. unfold id.
    rewrite (split_on_app "_" "checkpoint") by done.
    cbv [String.append]; fold String.append.
    cbn [Py.split_on Ascii.eqb Bool.eqb].
    change ((?x :: ?l) !! 1%nat) with (l !! 0%nat).
    destruct (split_on_first_app "_" (Py.str n) (String sep (more ++ ".csv")))
      as (p & Hpiece & Hp); [by apply str_plain|].
    rewrite Hpiece. cbn [mbind option_bind].
    destruct Hsep as [-> | ->].
    - cbn [Py.split_on Ascii.eqb Bool.eqb] in Hp. injection Hp as <-.
      rewrite string_app_nil_r, split_on_plain by by apply str_plain.
      cbn [lookup list_lookup mbind option_bind]. apply int_str.
    - assert (Hq : exists q, p = String "." q).
      { cbn [Py.split_on Ascii.eqb Bool.eqb] in Hp.
        destruct (Py.split_on "_" (more ++ ".csv")) as [|q qs];
          injection Hp as <-; by eexists. }
      destruct Hq as [q ->].
      rewrite split_on_first by by apply str_plain.
      cbn [mbind option_bind]. apply int_str. }
  split; [exact Hglob|]. split; [exact Hnum|].
  apply elem_of_completed_of. by exists (renamed_checkpoint n sep more).
Qed.

Lemma renamed_checkpoint_counts_demo :
  3 ∈ completed_of {[ "checkpoints/checkpoint_3_old.csv" := Csv four_columns [] ]}.
Proof.
  apply (renamed_checkpoint_counts 3 "_" "old"
           {[ "checkpoints/checkpoint_3_old.csv" := Csv four_columns [] ]}).
  - by left.
  - reflexivity.
  - vm_compute. by eexists.
Defined.

(** ** What is kept for the next run *)

Lemma fresh_turn_with_record all_ids completed all_data i st fid :
  batch_num i ∉ completed ->
  fid ∈ batch_ids all_ids i -> skips (web st) fid = false ->
  is_Some (files (snd (process_batch all_ids completed all_data i st))
             !! checkpoint_path (batch_num i)).
Proof.
  intros Hfresh Hfid Hrecord. rewrite process_batch_fresh by done.
  cbv zeta. cbn [snd]. rewrite save_checkpoint_run. cbn [snd].
  set (order := pool_order st (batch_ids all_ids i)).
  assert (Hin : fid ∈ order).
  { unfold order. by rewrite pool_order_perm. }
  unfold skips in Hrecord.
  destruct (served_record (web st) fid) as [r|] eqn:Hr; [|done].
  assert (Hdata : r ∈ omap (served_record (web st)) order).
  { apply list_elem_of_omap. by exists fid. }
  destruct (omap (served_record (web st)) order) as [|r' rs];
    [by apply elem_of_nil in Hdata|].
  cbn [files]. rewrite lookup_insert_eq. by eexists.
Qed.

(** X14.  What a run that ends well leaves for the next one.  Every
    batch the directory scan reported at the start is reported again at
    the end; and so is every batch of the run in which at least one
    identifier has a record, its checkpoint file being there.  The
    batches left to fetch again are those in which no identifier had a
    record. *)
Theorem progress_is_kept fuel st0 all_data st' :
  main fuel st0 = (Ok (Some all_data), st') ->
  completed_of (files st0) ⊆ completed_of (files st')
  /\ exists pages,
       listing_chain (web st0) LISTING_URL pages
       /\ let all_ids := concat (page_ids (web st0) <$> pages) in
          forall i fid,
            i ∈ range (length all_ids) batch_size ->
            fid ∈ batch_ids all_ids i -> skips (web st0) fid = false ->
            is_Some (files st' !! checkpoint_path (batch_num i))
            /\ batch_num i ∈ completed_of (files st').
Proof.
  intros Hmain.
  assert (Hkeep : forall path, is_Some (files st0 !! path) ->
                    glob_match path = true ->
                    files st' !! path = files st0 !! path).
  { intros path Hpath Hglob.
    replace st' with (snd (main fuel st0)) by by rewrite Hmain.
    apply main_keeps; [done|..]; intros ->;
      destruct glob_match_outputs; congruence. }
  split.
  { intros n. rewrite !elem_of_completed_of.
    intros (f & Hf & Hglob & Hnum). exists f.
    by rewrite Hkeep. }
  apply main_stages in Hmain
    as (pages & st1 & all_ids & st2 & st3 & Hpages & Hids & Hreq & Hloop & Hout).
  rewrite (collect_after_listing _ _ _ _ Hpages) in Hids.
  injection Hids as <- _.
  apply (listing_loop_state fuel [] LISTING_URL) in Hpages
    as (visited & -> & Hchain & _).
  cbn [app] in *.
  exists visited. split; [exact Hchain|].
  intros i fid Hi Hfid Hrecord.
  set (all_ids := concat (page_ids (web st0) <$> visited)) in *.
  assert (Hfile : is_Some (files st' !! checkpoint_path (batch_num i))).
  { destruct Hreq as (Hweb & _ & _ & Hfiles & _).
    destruct (loop_reaches_turn _ _ _ _ _ _ Hloop Hi)
      as (before & after & data_i & st_i & acc & st_i' & Hsplit & _ & Hhigh
          & Hbefore & Hfile_i & Hturn & Hafter).
    destruct (decide (batch_num i ∈ completed_of (files st0))) as [Hdone|Hfresh].
    - rewrite process_batch_completed in Hturn by done.
      rewrite Hfile_i, Hfiles in Hturn.
      destruct (files st0 !! checkpoint_path (batch_num i)) as [text|] eqn:Hfile;
        [|done].
      rewrite Hkeep; [by rewrite Hfile|by rewrite Hfile|].
      apply glob_match_checkpoint.
    - assert (Hweb_i : web st_i = web st0).
      { destruct (batch_turns_effects all_ids (completed_of (files st0))
                    before [] st2) as (Hw & _).
        rewrite Hbefore in Hw. cbn [snd] in Hw. congruence. }
      pose proof (fresh_turn_with_record all_ids _ data_i i st_i fid Hfresh Hfid
                    ltac:(by rewrite Hweb_i)) as Hwritten.
      rewrite Hturn in Hwritten. cbn [snd] in Hwritten.
      destruct (batch_turns_effects all_ids (completed_of (files st0))
                  after acc st_i') as (_ & _ & _ & Hfiles_after & _).
      rewrite Hafter in Hfiles_after. cbn [snd] in Hfiles_after.
      replace st' with (snd (write_outputs all_data st3)) by by rewrite Hout.
      rewrite write_outputs_files by apply glob_match_checkpoint.
      rewrite Hfiles_after; [done|].
      apply Forall_forall. intros j Hj Heq. apply checkpoint_path_inj in Heq.
      rewrite Forall_forall in Hhigh. specialize (Hhigh j Hj). lia. }
  split; [exact Hfile|]. by apply checkpoint_present_completed.
Qed.

Lemma progress_is_kept_demo :
  completed_of (files demo_state) ⊆ completed_of (files (snd (main 5%nat demo_state))).
Proof.
  apply (progress_is_kept 5%nat demo_state
           [entry "FL0000000001" (Fields "CCO" "" "268")]
           (snd (main 5%nat demo_state))).
  by vm_compute.
Defined.

(** X15.  A run whose listing pages give no identifier: there is no
    batch, so no entry is requested and no checkpoint written; the run
    ends well with no record, and still writes the final file, as a table
    without columns or lines (and the skipped file, when identifiers were
    noted before). *)
Theorem run_without_identifiers fuel st pages st1 :
  get_listing_pages fuel st = (Ok (Some pages), st1) ->
  concat (page_ids (web st) <$> pages) = [] ->
  fst (main fuel st) = Ok (Some [])
  /\ files (snd (main fuel st)) !! final_file = Some (Csv [] [])
  /\ (forall path, path <> final_file -> path <> skipped_file ->
        files (snd (main fuel st)) !! path = files st !! path)
  /\ trace (snd (main fuel st))
     = (trace st ++ (Get <$> pages) ++ (Get <$> pages)
          ++ ToCsv final_file ::
             match skipped_entries st with
             | [] => []
             | _ => [ToCsv skipped_file]
             end)%list.
Proof.
  intros Hpages Hnone.
  pose proof (collect_after_listing _ _ _ _ Hpages) as Hids.
  rewrite Hnone in Hids.
  destruct (main_after_collect _ _ _ _ _ _ Hpages Hids) as [_ ->].
  unfold batch_loop. cbn [length range range_from for_each mret M_ret].
  rewrite write_outputs_run. cbn [fst snd]. split; [done|].
  unfold traced, set_trace.
  destruct (skipped_entries st) as [|fid l] eqn:Hskipped;
    cbn [files trace skipped_entries]; rewrite ?Hskipped; cbn [files trace].
  - split; [by rewrite lookup_insert_eq|].
    split; [by intros path ? ?; rewrite lookup_insert_ne|].
    by rewrite <- !app_assoc.
  - split; [by rewrite lookup_insert_ne, lookup_insert_eq|].
    split; [by intros path ? ?; rewrite !lookup_insert_ne|].
    by rewrite <- !app_assoc.
Qed.

Lemma run_without_identifiers_demo :
  fst (main 1%nat bare_state) = Ok (Some []).
Proof.
  apply (run_without_identifiers 1%nat bare_state [LISTING_URL]
           (snd (get_listing_pages 1%nat bare_state))).
  - by vm_compute.
  - by vm_compute.
Defined.

(** ** Whole-number masses *)

Lemma round_binary64_sign neg num den s m e :
  Py.round_binary64 neg num den = Py.Finite s m e -> s = neg.
Proof.
  unfold Py.round_binary64.
  destruct (Py.scaled _ _ _) as [n d].
  destruct (_ =? _); destruct (971 <? _); intros [= <- _ _]; done.
Qed.

Lemma whole_number_binary64 n :
  0 < n <= 2 ^ 53 ->
  exists m e, binary64 m e /\ units m e = n * 2 ^ 1074.
Proof.
  intros Hn.
  destruct (Z.log2_spec n ltac:(lia)) as [Hlow Hhigh].
  assert (Hk := Z.log2_nonneg n).
  rewrite Z.pow_succ_r in Hhigh by done.
  set (k := Z.log2 n) in *.
  assert (Hk53 : k <= 53).
  { apply (Z.pow_le_mono_r_iff 2); lia. }
  destruct (decide (k = 53)) as [Hk'|Hk'].
  - exists (2 ^ 52), 1. split.
    + unfold binary64. change (2 ^ 52) with 4503599627370496.
      change (2 ^ 53) with 9007199254740992. lia.
    + unfold units. rewrite Hk' in Hlow.
      assert (n = 2 ^ 53) by lia. subst n.
      rewrite <- !Z.pow_add_r by lia. f_equal.
  - exists (n * 2 ^ (52 - k)), (k - 52).
    assert (Hp : 2 ^ k * 2 ^ (52 - k) = 2 ^ 52).
    { rewrite <- Z.pow_add_r by lia. f_equal. lia. }
    assert (Hpos : 0 < 2 ^ (52 - k)) by (apply Z.pow_pos_nonneg; lia).
    split.
    + unfold binary64.
      change (2 ^ 52) with 4503599627370496 in *.
      change (2 ^ 53) with 9007199254740992 in *.
      remember (2 ^ k) as K. remember (2 ^ (52 - k)) as P.
      split; [nia|]. split; [lia|]. left. nia.
    + unfold units. rewrite <- Z.mul_assoc. f_equal.
      rewrite <- Z.pow_add_r by lia. f_equal. lia.
Qed.

Lemma whole_number_exact neg n :
  0 < n <= 2 ^ 53 ->
  Py.int_of_float (Py.round_binary64 neg n 1) = Some (if neg then - n else n).
Proof.
  intros Hn.
  pose proof (round_binary64_correct neg n 1 ltac:(lia) ltac:(lia)) as Hround.
  destruct (Py.round_binary64 neg n 1) as [s m e|s|] eqn:Hr;
    cbn [correctly_rounded] in Hround.
  - apply round_binary64_sign in Hr as ->.
    destruct Hround as [(Hm & He & _) Hnear].
    destruct (whole_number_binary64 n Hn) as (m' & e' & Hb & Hunits).
    destruct (Hnear m' e' Hb) as [Hle _].
    unfold distance in Hle. rewrite Hunits in Hle.
    replace (n * 2 ^ 1074 - 1 * (n * 2 ^ 1074)) with 0 in Hle by ring.
    assert (Hexact : n * 2 ^ 1074 = m * 2 ^ (e + 1074)).
    { unfold units in Hle. lia. }
    cbn [Py.int_of_float]. f_equal.
    assert (Hvalue : (if 0 <=? e then m * 2 ^ e else m / 2 ^ (- e)) = n).
    { assert (HT : 0 < 2 ^ 1074) by (apply Z.pow_pos_nonneg; lia).
      destruct (Z.leb_spec 0 e) as [Hpos|Hneg].
      - rewrite Z.pow_add_r in Hexact by lia.
        apply (Z.mul_cancel_r _ _ (2 ^ 1074)); [lia|]. lia.
      - assert (Hsplit : 2 ^ 1074 = 2 ^ (e + 1074) * 2 ^ (- e)).
        { rewrite <- Z.pow_add_r by lia. f_equal. lia. }
        assert (HU : 0 < 2 ^ (e + 1074)) by (apply Z.pow_pos_nonneg; lia).
        assert (HE : 0 < 2 ^ (- e)) by (apply Z.pow_pos_nonneg; lia).
        rewrite Hsplit in Hexact.
        assert (Hm' : m = n * 2 ^ (- e)).
        { apply (Z.mul_cancel_r _ _ (2 ^ (e + 1074))); [lia|]. lia. }
        rewrite Hm'. apply Z.div_mul. lia. }
    by rewrite Hvalue.
  - exfalso.
    assert (HP : 0 < 2 ^ 970) by (apply Z.pow_pos_nonneg; lia).
    assert (E : 2 ^ 1024 = 18014398509481984 * 2 ^ 970) by reflexivity.
    rewrite E in Hround. change (2 ^ 53) with 9007199254740992 in Hn.
    assert (E' : 2 ^ 970 = 2 ^ 54 * 2 ^ 916) by reflexivity.
    assert (HQ : 0 < 2 ^ 916) by (apply Z.pow_pos_nonneg; lia).
    rewrite E' in Hround. change (2 ^ 54) with 18014398509481984 in Hround.
    remember (2 ^ 916) as Q. nia.
  - done.
Qed.

Lemma digits_not_word ds w :
  ds <> "" -> all_chars Py.isdigit ds = true ->
  w = "inf" \/ w = "infinity" \/ w = "nan" ->
  String.eqb (Py.lower ds) w = false.
Proof.
  intros Hne Hds Hw. destruct ds as [|c r]; [done|].
  cbn [all_chars] in Hds. apply andb_true_iff in Hds as [Hc _].
  apply String.eqb_neq. intros Heq.
  assert (Hhead : Py.lower_char c = "i"%char \/ Py.lower_char c = "n"%char).
  { cbn [Py.lower] in Heq. destruct Hw as [->|[->| ->]]; injection Heq; auto. }
  clear -Hc Hhead.
  destruct c as [[] [] [] [] [] [] [] []]; vm_compute in Hc; try discriminate;
    vm_compute in Hhead; by destruct Hhead.
Qed.

Lemma float_str z :
  Py.float (Py.str z)
  = Some (if z =? 0 then Py.Finite false 0 0
          else Py.round_binary64 (z <? 0) (Z.abs z) 1).
Proof.
  destruct (str_shape z) as (ds & Hstr & Hne & Hds & Hval).
  assert (Hplain : forall c, numeric_char c = true ->
            negb (Py.isspace c) = true /\ negb (Ascii.eqb c "_") = true).
  { intros c Hc. destruct (numeric_char_plain c Hc) as (-> & -> & _). done. }
  unfold Py.float.
  rewrite strip_id; last first.
  { generalize (str_numeric z). apply all_chars_impl. intros c Hc.
    by apply Hplain. }
  rewrite drop_underscores_id; [|
    generalize (str_numeric z); apply all_chars_impl; intros c Hc;
    by apply Hplain | done].
  cbn [mbind option_bind].
  assert (Hsign : Py.take_sign (Py.str z) = (z <? 0, ds)).
  { rewrite Hstr. destruct (z <? 0).
    - done.
    - cbv [String.append]. by apply take_sign_digits. }
  rewrite Hsign.
  rewrite !digits_not_word by auto. cbn [orb].
  rewrite split_exponent_digits, split_point_digits by done.
  assert (Hip : String.eqb ds "" = false) by by apply String.eqb_neq.
  rewrite Hip. cbn [andb].
  assert (Hdz : Py.digits_or_zero ds = Some (Z.abs z)).
  { unfold Py.digits in Hval. unfold Py.digits_or_zero. by destruct ds. }
  rewrite Hdz. cbn [mbind option_bind Py.digits_or_zero String.length].
  change (Z.of_nat 0) with 0. change (10 ^ 0) with 1.
  rewrite Z.mul_1_r, Z.add_0_r. change (0 - 0) with 0. cbn [Z.leb Z.compare].
  rewrite Z.mul_1_r. f_equal.
  destruct (Z.eqb_spec z 0) as [->|Hz]; [done|].
  destruct (Z.eqb_spec (Z.abs z) 0); [lia|done].
Qed.

(** X16.  A mass written as a whole number of at most 2^53 in absolute
    value, with or without a unit after it, is stored as it is written:
    reading it as a float and truncating the float loses nothing.  (Above
    2^53 it may: [1e23] is stored as [99999999999999991611392].) *)
Theorem whole_mass_is_kept z value :
  Z.abs z <= 2 ^ 53 ->
  head (Py.split_ws value) = Some (Py.str z) ->
  parse_mass value = Some (Py.str z).
Proof.
  intros Hz Htok. unfold parse_mass. rewrite Htok. cbn [mbind option_bind].
  rewrite float_str. cbn [mbind option_bind].
  destruct (Z.eqb_spec z 0) as [->|Hnz]; [done|].
  rewrite whole_number_exact by lia. cbn [mbind option_bind].
  do 2 f_equal. destruct (Z.ltb_spec z 0); lia.
Qed.

Lemma whole_mass_is_kept_demo :
  parse_mass "268 g/mol" = Some "268".
Proof.
  apply (whole_mass_is_kept 268 "268 g/mol").
  - simpl. lia.
  - reflexivity.
Defined.
